(** * Dealership inventory tracker: scraper.py and ga4_client.py

    A shallow embedding of the two extraction engines of the repository,
    the page scraper ([src/scraper.py]) and the analytics report client
    ([src/ga4_client.py]), with the properties the specification states
    about them.

    Python values are modelled as the interpreter has them: a [str] is a
    sequence of Unicode code points, an [int] is unbounded ([Z]), an
    exception is a value of [exn] carried by [Raise].  Library calls whose
    code is outside the repository (the HTTP session, [json.loads],
    BeautifulSoup, configured regular expressions, [urllib.parse]) are
    parameters of the sections below. *)

From Stdlib Require Import String Ascii.
From Stdlib Require Import List ZArith NArith Bool Lia DecimalString.
From Stdlib Require Import Sorting.Sorted Sorting.Permutation.
Import ListNotations.

Set Warnings "-register-all".

(** ** Python strings *)

(** A code point. *)
Definition char := N.

(** A Python [str]. *)
Definition str := list char.

Definition ch (a : ascii) : char := N_of_ascii a.
Arguments ch a%_char.

(** An ASCII literal as a [str]. *)
Definition lit (s : string) : str := map N_of_ascii (list_ascii_of_string s).
Arguments lit s%_string.

Local Open Scope N_scope.

Definition in_range (lo hi c : char) : bool := (lo <=? c) && (c <=? hi).

Definition str_eqb (a b : str) : bool :=
  if list_eq_dec N.eq_dec a b then true else false.

(** Truthiness of a [str]: the empty string is falsy. *)
Definition truthy (s : str) : bool :=
  match s with [] => false | _ :: _ => true end.

(** The code points [str.strip()] removes: those for which [str.isspace]
    holds. *)
Definition is_space (c : char) : bool :=
  in_range 0x09 0x0D c || in_range 0x1C 0x20 c || (c =? 0x85) || (c =? 0xA0)
  || (c =? 0x1680) || in_range 0x2000 0x200A c || (c =? 0x2028)
  || (c =? 0x2029) || (c =? 0x202F) || (c =? 0x205F) || (c =? 0x3000).

Fixpoint lstrip (s : str) : str :=
  match s with
  | [] => []
  | c :: s' => if is_space c then lstrip s' else s
  end.

Definition rstrip (s : str) : str := rev (lstrip (rev s)).

(** [str.strip()] *)
Definition strip (s : str) : str := rstrip (lstrip s).

(** [str.upper()], given the upper-case mapping of the code points outside
    ASCII (a table of the Unicode database; one code point may map to
    several). *)
Definition upper_char (unicode_upper : char -> list char) (c : char) : list char :=
  if in_range (ch "a") (ch "z") c then [c - 32]
  else if c <? 128 then [c]
  else unicode_upper c.

Definition upper (unicode_upper : char -> list char) (s : str) : str :=
  flat_map (upper_char unicode_upper) s.

(** ** scraper.py: the structural VIN check *)

(** The character set [[A-HJ-NPR-Z0-9]] of [_VIN_RE]. *)
Definition vin_set (c : char) : bool :=
  in_range (ch "A") (ch "H") c || in_range (ch "J") (ch "N") c
  || (c =? ch "P") || in_range (ch "R") (ch "Z") c
  || in_range (ch "0") (ch "9") c.

(** The ASCII characters a code point is equal to under [re.IGNORECASE] in
    a [str] pattern.  Besides the two cases of an ASCII letter the engine
    equates four code points outside ASCII with a letter: U+0130 and U+0131
    with [i], U+017F with [s], U+212A with [k]. *)
Definition case_variants (c : char) : list char :=
  if in_range (ch "A") (ch "Z") c then [c; c + 32]
  else if in_range (ch "a") (ch "z") c then [c; c - 32]
  else if (c =? 0x130) || (c =? 0x131) then [c; ch "I"; ch "i"]
  else if c =? 0x17F then [c; ch "S"; ch "s"]
  else if c =? 0x212A then [c; ch "K"; ch "k"]
  else [c].

(** One character against a set of ASCII ranges, case ignored. *)
Definition set_ignorecase (set : char -> bool) (c : char) : bool :=
  existsb set (case_variants c).

(** [[A-HJ-NPR-Z0-9]{n}]: exactly [n] characters of the set; the rest of
    the subject is returned. *)
Fixpoint vin_set_repeat (n : nat) (s : str) : option str :=
  match n with
  | O => Some s
  | S n' =>
      match s with
      | c :: s' => if set_ignorecase vin_set c then vin_set_repeat n' s' else None
      | [] => None
      end
  end.

(** [$] without [re.MULTILINE]: the end of the subject, or just before a
    newline that ends it. *)
Definition at_dollar (rest : str) : bool :=
  match rest with
  | [] => true
  | [c] => c =? 0x0A
  | _ => false
  end.

(** [_VIN_RE.match(s)] is not [None];
    [_VIN_RE = re.compile(r"^[A-HJ-NPR-Z0-9]{17}$", re.IGNORECASE)]. *)
Definition _VIN_RE_match (s : str) : bool :=
  match vin_set_repeat 17 s with
  | Some rest => at_dollar rest
  | None => false
  end.

Definition _is_valid_vin (value : str) : bool := _VIN_RE_match (strip value).

(** The rule as the specification words it: after trimming, exactly 17
    characters, each a letter A-Z other than I, O, Q in either case, or a
    digit. *)
Definition spec_vin_char (c : char) : bool :=
  vin_set c || (in_range (ch "a") (ch "z") c && vin_set (c - 32)).

Definition spec_is_valid (candidate : str) : bool :=
  (length (strip candidate) =? 17)%nat && forallb spec_vin_char (strip candidate).

(** ** Exceptions and results *)

(** The exceptions the two modules raise, catch or let through.  [msg] is
    what [str(exc)] gives. *)
Inductive exn : Type :=
| PageNotFoundError (msg : str)
| RequestException (msg : str) (cause : option exn)
| ConnectionError (msg : str)
| HTTPError (msg : str)
| JSONDecodeError (msg : str)
| ValueError (msg : str)
| TypeError (msg : str)
| AttributeError (msg : str)
| IndexError (msg : str)
| GoogleAPIError (msg : str)
| OtherException (msg : str).

(** [str(exc)] *)
Definition exn_str (e : exn) : str :=
  match e with
  | PageNotFoundError m | RequestException m _ | ConnectionError m
  | HTTPError m | JSONDecodeError m | ValueError m | TypeError m
  | AttributeError m | IndexError m | GoogleAPIError m
  | OtherException m => m
  end.

(** [isinstance(e, requests.exceptions.RequestException)]:
    [ConnectionError] (with the timeouts and the invalid-URL errors the
    session raises) and [HTTPError] are subclasses. *)
Definition is_RequestException (e : exn) : bool :=
  match e with
  | RequestException _ _ | ConnectionError _ | HTTPError _ => true
  | _ => false
  end.

Inductive result (A : Type) : Type :=
| Return (a : A)
| Raise (e : exn).
Arguments Return {A} a.
Arguments Raise {A} e.

Definition bind {A B} (r : result A) (k : A -> result B) : result B :=
  match r with
  | Return a => k a
  | Raise e => Raise e
  end.

Declare Scope py_scope.
Delimit Scope py_scope with py.
Notation "x <- r ;; k" := (bind r (fun x => k))
  (at level 61, r at next level, right associativity) : py_scope.

(** [f"{n}"] for an [int]. *)
Definition str_of_int (n : Z) : str :=
  lit (DecimalString.NilZero.string_of_int (Z.to_int n)).

(** [range(n)] *)
Definition range (n : Z) : list Z := map Z.of_nat (seq 0 (Z.to_nat n)).

(** ** JSON values, as [json.loads] builds them *)

Inductive json : Type :=
| JNone
| JBool (b : bool)
| JInt (n : Z)
| JFloat (repr : str)
| JStr (s : str)
| JList (items : list json)
| JDict (items : list (str * json)).

(** [d.get(key)] on the items of a [dict]. *)
Fixpoint dict_get (key : str) (d : list (str * json)) : option json :=
  match d with
  | [] => None
  | (k, v) :: d' => if str_eqb k key then Some v else dict_get key d'
  end.

(** What a [for] statement iterates over: the items of a list, the keys of
    a dict, the characters of a string; the other values are not iterable. *)
Definition iterate (v : json) : result (list json) :=
  match v with
  | JList items => Return items
  | JDict items => Return (map (fun kv => JStr (fst kv)) items)
  | JStr s => Return (map (fun c => JStr [c]) s)
  | JNone => Raise (TypeError (lit "'NoneType' object is not iterable"))
  | JBool _ => Raise (TypeError (lit "'bool' object is not iterable"))
  | JInt _ => Raise (TypeError (lit "'int' object is not iterable"))
  | JFloat _ => Raise (TypeError (lit "'float' object is not iterable"))
  end.

(** ** The parsed document and the libraries of scraper.py *)

(** What the scraper reads of a [BeautifulSoup] document: the [.string] of
    every [<script type="application/ld+json">] in document order ([None]
    when the tag has no single string child), the text of the container
    [_find_vehicle_id_section] returns when it finds the heading, and the
    text of the whole page. *)
Record soup : Type := {
  ld_json_scripts : list (option str);
  section_text : option str;
  page_text : str
}.

(** [m.group(1)] of a match object. *)
Inductive group1 : Type :=
| NoSuchGroup
| Unmatched
| Group (s : str).

(** The six components [urlparse] returns. *)
Record ParseResult : Type := {
  scheme : str; netloc : str; path : str;
  params : str; query : str; fragment : str
}.

(** A response of [requests]. *)
Record Response : Type := {
  status_code : Z;
  reason : str;
  text : str
}.

(** What one call of [session.get] does: it returns a response or raises
    a subclass of [RequestException]. *)
Inductive get_outcome : Type :=
| Got (r : Response)
| GetRaised (msg : str).

(** The library functions scraper.py calls. *)
Record Lib : Type := {
  (** the upper-case table outside ASCII *)
  unicode_upper : char -> list char;
  (** [json.loads] *)
  json_loads : str -> result json;
  (** [BeautifulSoup(html, "lxml")] *)
  BeautifulSoup : str -> result soup;
  (** [re.compile(pattern, re.IGNORECASE).search(text)]: [None] when there
      is no match, else group 1 of the leftmost one *)
  re_search : str -> str -> option group1;
  (** [urllib.parse.urlparse]; raises [ValueError] on a malformed
      network location *)
  urlparse : str -> result ParseResult;
  (** [urllib.parse.parse_qs(q, keep_blank_values=True)] *)
  parse_qs : str -> list (str * list str);
  (** [urllib.parse.urlencode(d, doseq=True)] *)
  urlencode : list (str * list str) -> str;
  (** [urllib.parse.urlunparse] *)
  urlunparse : ParseResult -> str;
  (** [datetime.now(timezone.utc).isoformat()] *)
  utc_now : str
}.

(** The configuration keys [InventoryScraper.__init__] keeps. *)
Record Config : Type := {
  max_retries : Z;
  utm_source : str;
  utm_medium : str;
  vin_text_pattern : str;
  stock_patterns : list str;
  jsonld_vin_fields : list str
}.

Inductive status : Type := success | failed | not_found.

Record ScrapeResult : Type := {
  full_url : str;
  stock_number : option str;
  vin_number : option str;
  scraped_at : str;
  scrape_status : status;
  error_message : option str
}.

(** What [_fetch_html] does to the outside world. *)
Inductive event : Type :=
| Get (url : str)
| Sleep (seconds : Z).

(** ** scraper.py: [InventoryScraper] *)

Section InventoryScraper.

Variable L : Lib.
Variable cfg : Config.

(** The network as one call of [_fetch_html] meets it: the outcome of the
    [k]-th request (counted from 0) for a URL. *)
Variable session_get : str -> nat -> get_outcome.

Local Open Scope Z_scope.
Local Open Scope py_scope.

(** [d.update({k: v})] on the items of a [dict]: an existing key keeps its
    place, a new one goes last. *)
Fixpoint dict_set {V : Type} (k : str) (v : V) (d : list (str * V)) : list (str * V) :=
  match d with
  | [] => [(k, v)]
  | (k', v') :: d' =>
      if str_eqb k' k then (k', v) :: d' else (k', v') :: dict_set k v d'
  end.

Definition utm_params : list (str * str) :=
  (if truthy (utm_source cfg) then [(lit "utm_source", utm_source cfg)] else [])
  ++ (if truthy (utm_medium cfg) then [(lit "utm_medium", utm_medium cfg)] else []).

Definition _append_utm (url : str) : result str :=
  match utm_params with
  | [] => Return url
  | _ :: _ =>
      parsed <- urlparse L url ;;
      let existing := parse_qs L (query parsed) in
      let existing :=
        fold_left (fun d kv => dict_set (fst kv) [snd kv] d) utm_params existing in
      let new_query := urlencode L existing in
      Return (urlunparse L
                {| scheme := scheme parsed; netloc := netloc parsed;
                   path := path parsed; params := params parsed;
                   query := new_query; fragment := fragment parsed |})
  end.

(** [response.raise_for_status()]: the [HTTPError] of a 4xx or 5xx status. *)
Definition raise_for_status (fetch_url : str) (r : Response) : option exn :=
  let describe kind :=
    HTTPError (str_of_int (status_code r) ++ lit kind ++ reason r
               ++ lit " for url: " ++ fetch_url) in
  if (400 <=? status_code r) && (status_code r <? 500)
  then Some (describe " Client Error: "%string)
  else if (500 <=? status_code r) && (status_code r <? 600)
  then Some (describe " Server Error: "%string)
  else None.

(** One pass of the body of [for attempt in range(self._max_retries)]:
    either the function leaves (it returns the body or re-raises the 404),
    or the failure is kept in [last_exc] and the loop goes on. *)
Inductive attempt_outcome : Type :=
| Leave (r : result str)
| Retry (exc : exn).

Definition try_once (url fetch_url : str) (attempt : Z) : attempt_outcome :=
  match session_get fetch_url (Z.to_nat attempt) with
  | Got response =>
      if status_code response =? 404
      then Leave (Raise (PageNotFoundError (lit "404 Not Found: " ++ url)))
      else match raise_for_status fetch_url response with
           | Some exc => Retry exc
           | None => Leave (Return (text response))
           end
  | GetRaised msg => Retry (ConnectionError msg)
  end.

Fixpoint fetch_loop (url fetch_url : str) (attempts : list Z)
  (last_exc : option exn) : list event * result str :=
  match attempts with
  | [] =>
      ([], Raise (RequestException
                    (lit "All " ++ str_of_int (max_retries cfg)
                     ++ lit " attempts failed for " ++ fetch_url)
                    last_exc))
  | attempt :: rest =>
      match try_once url fetch_url attempt with
      | Leave r => ([Get fetch_url], r)
      | Retry exc =>
          let wait := 2 ^ attempt in
          let pause :=
            if attempt <? max_retries cfg - 1 then [Sleep wait] else [] in
          let (later, r) := fetch_loop url fetch_url rest (Some exc) in
          (Get fetch_url :: pause ++ later, r)
      end
  end.

Definition _fetch_html (url : str) : list event * result str :=
  match _append_utm url with
  | Raise e => ([], Raise e)
  | Return fetch_url => fetch_loop url fetch_url (range (max_retries cfg)) None
  end.

(** The inner loop of [_extract_vin_from_jsonld]: the configured field
    names, in order, on one candidate object. *)
Fixpoint probe_fields (fields : list str) (obj : list (str * json)) : option str :=
  match fields with
  | [] => None
  | field_name :: fields' =>
      match dict_get field_name obj with
      | Some (JStr raw_value) =>
          if truthy raw_value then
            let candidate := strip raw_value in
            if _is_valid_vin candidate
            then Some (upper (unicode_upper L) candidate)
            else probe_fields fields' obj
          else probe_fields fields' obj
      | _ => probe_fields fields' obj
      end
  end.

(** [for obj in candidates]: objects that are not a [dict] are skipped. *)
Fixpoint probe_candidates (candidates : list json) : option str :=
  match candidates with
  | [] => None
  | JDict obj :: rest =>
      match probe_fields (jsonld_vin_fields cfg) obj with
      | Some vin => Some vin
      | None => probe_candidates rest
      end
  | _ :: rest => probe_candidates rest
  end.

(** "Normalise to a list of candidate objects": [None] when the block is
    neither a dict nor a list. *)
Definition candidates_of (data : json) : option json :=
  match data with
  | JDict d =>
      Some (match dict_get (lit "@graph") d with
            | Some graph => graph
            | None => JList [data]
            end)
  | JList _ => Some data
  | _ => None
  end.

(** One [<script>] block: [Return None] stands for [continue]. *)
Definition probe_block (script_string : option str) : result (option str) :=
  match script_string with
  | None => Return None
  | Some raw =>
      if negb (truthy raw) then Return None
      else match json_loads L raw with
           | Raise (JSONDecodeError _) => Return None
           | Raise e => Raise e
           | Return data =>
               match candidates_of data with
               | None => Return None
               | Some candidates =>
                   objs <- iterate candidates ;;
                   Return (probe_candidates objs)
               end
           end
  end.

Fixpoint probe_blocks (scripts : list (option str)) : result (option str) :=
  match scripts with
  | [] => Return None
  | script :: rest =>
      found <- probe_block script ;;
      match found with
      | Some vin => Return (Some vin)
      | None => probe_blocks rest
      end
  end.

Definition _extract_vin_from_jsonld (doc : soup) : result (option str) :=
  probe_blocks (ld_json_scripts doc).

(** The text both text extractors search: the section's when
    [_find_vehicle_id_section] finds one, else the page's. *)
Definition scope_text (doc : soup) : str :=
  match section_text doc with
  | Some t => t
  | None => page_text doc
  end.

(** [match.group(1).strip()] *)
Definition group1_strip (g : group1) : result str :=
  match g with
  | NoSuchGroup => Raise (IndexError (lit "no such group"))
  | Unmatched =>
      Raise (AttributeError (lit "'NoneType' object has no attribute 'strip'"))
  | Group s => Return (strip s)
  end.

Definition _extract_vin_from_text (doc : soup) : result (option str) :=
  match re_search L (vin_text_pattern cfg) (scope_text doc) with
  | None => Return None
  | Some g =>
      candidate <- group1_strip g ;;
      if _is_valid_vin candidate
      then Return (Some (upper (unicode_upper L) candidate))
      else Return None
  end.

Fixpoint search_stock (patterns : list str) (text : str) : result (option str) :=
  match patterns with
  | [] => Return None
  | pattern :: rest =>
      match re_search L pattern text with
      | None => search_stock rest text
      | Some g =>
          stripped <- group1_strip g ;;
          Return (Some (upper (unicode_upper L) stripped))
      end
  end.

Definition _extract_stock_number (doc : soup) : result (option str) :=
  search_stock (stock_patterns cfg) (scope_text doc).

(** "VIN: prefer JSON-LD (structured, reliable), fall back to text":
    the two statements of [scrape_page] that compute [vin]. *)
Definition vin_of_page (doc : soup) : result (option str) :=
  vin <- _extract_vin_from_jsonld doc ;;
  match vin with
  | None => _extract_vin_from_text doc
  | Some _ => Return vin
  end.

(** The body of the second [try] of [scrape_page]. *)
Definition parse_and_extract (html : str) : result (option str * option str) :=
  doc <- BeautifulSoup L html ;;
  vin <- vin_of_page doc ;;
  stock <- _extract_stock_number doc ;;
  Return (vin, stock).

Definition new_result (url : str) : ScrapeResult :=
  {| full_url := url; stock_number := None; vin_number := None;
     scraped_at := utc_now L; scrape_status := success;
     error_message := None |}.

Definition with_failure (r : ScrapeResult) (s : status) (msg : str) : ScrapeResult :=
  {| full_url := full_url r; stock_number := stock_number r;
     vin_number := vin_number r; scraped_at := scraped_at r;
     scrape_status := s; error_message := Some msg |}.

Definition scrape_page (url : str) : list event * result ScrapeResult :=
  let result := new_result url in
  let (events, fetched) := _fetch_html url in
  match fetched with
  | Raise (PageNotFoundError _ as exc) =>
      (events, Return (with_failure result not_found (exn_str exc)))
  | Raise exc =>
      if is_RequestException exc
      then (events, Return (with_failure result failed (exn_str exc)))
      else (events, Raise exc)
  | Return html =>
      match parse_and_extract html with
      | Return (vin, stock) =>
          (events,
           Return {| full_url := full_url result; stock_number := stock;
                     vin_number := vin; scraped_at := scraped_at result;
                     scrape_status := scrape_status result;
                     error_message := error_message result |})
      | Raise exc =>
          (events,
           Return (with_failure result failed (lit "Parse error: " ++ exn_str exc)))
      end
  end.

End InventoryScraper.

(** ** ga4_client.py *)

(** A row of a report: the [value]s of its dimension and metric cells. *)
Record Row : Type := {
  dimension_values : list str;
  metric_values : list str
}.

(** A [RunReportResponse]. *)
Record Report : Type := {
  rows : list Row;
  row_count : Z
}.

(** An element of the returned list,
    [{"page_path": ..., "page_views": ...}]. *)
Record Page : Type := {
  page_path : str;
  page_views : Z
}.

(** The library functions ga4_client.py calls. *)
Record GaLib : Type := {
  (** [int(s)]; [None] for [ValueError] *)
  py_int : str -> option Z;
  (** the value of a decimal digit outside ASCII (category Nd) *)
  unicode_decimal : char -> option N;
  (** [re.compile(pattern, re.IGNORECASE).match(s)] is not [None] *)
  re_match_start : str -> str -> bool;
  (** [re.compile(pattern, re.IGNORECASE).search(s)] is not [None] *)
  re_search_any : str -> str -> bool
}.

(** The configuration keys that decide the result. *)
Record GaConfig : Type := {
  pageview_threshold : Z;
  max_results : Z;
  page_path_pattern : str;
  page_path_exclude_pattern : str
}.

(** What [GA4Client.__init__] keeps of them. *)
Record GA4Client : Type := {
  _threshold : Z;
  _max_results : Z;
  _page_path_re : option str;
  _page_path_exclude_re : option str
}.

Definition compile_if_set (raw : str) : option str :=
  if truthy raw then Some raw else None.

Definition GA4Client_init (config : GaConfig) : GA4Client :=
  {| _threshold := pageview_threshold config;
     _max_results := max_results config;
     _page_path_re := compile_if_set (page_path_pattern config);
     _page_path_exclude_re := compile_if_set (page_path_exclude_pattern config) |}.

Definition _PAGE_SIZE : Z := 10000.

(** The locals of [get_underexposed_pages] the loop updates. *)
Record LoopState : Type := {
  underexposed : list Page;
  offset : Z;
  total_seen : Z;
  filtered_count : Z
}.

(** How the [while True] loop ends: by a [break] after some number of
    calls of [_fetch_batch], by an exception of the API, or not within the
    fuel given. *)
Inductive loop_end : Type :=
| Broke (fetches : nat) (st : LoopState)
| ApiFailed (fetches : nat) (e : exn)
| OutOfFuel.

(** [l[:m]] *)
Definition slice_to {A : Type} (l : list A) (m : Z) : list A :=
  if (m <? 0)%Z
  then firstn (Z.to_nat (Z.of_nat (length l) + m)) l
  else firstn (Z.to_nat m) l.

Section GA4.

Variable G : GaLib.
Variable self : GA4Client.

(** [self._fetch_batch(offset)] as the loop meets it: the answer to the
    [n]-th call (counted from 0), made with the given offset. *)
Variable _fetch_batch : nat -> Z -> result Report.

(** [\d] on one code point. *)
Definition decimal_value (c : char) : option N :=
  if in_range (ch "0") (ch "9") c then Some (c - 48)
  else if c <? 128 then None
  else unicode_decimal G c.

Fixpoint strip_prefix (p s : str) : option str :=
  match p, s with
  | [], _ => Some s
  | a :: p', b :: s' => if a =? b then strip_prefix p' s' else None
  | _ :: _, [] => None
  end.

(** [/inventory/(\d{4})-] anchored at the head of [s]: the four digits. *)
Definition slug_year_at (s : str) : option (N * N * N * N) :=
  match strip_prefix (lit "/inventory/") s with
  | Some (a :: b :: c :: d :: e :: _) =>
      match decimal_value a, decimal_value b, decimal_value c, decimal_value d with
      | Some x, Some y, Some z, Some w =>
          if e =? ch "-" then Some (x, y, z, w) else None
      | _, _, _, _ => None
      end
  | _ => None
  end.

(** [_SLUG_YEAR_RE.search(s)]: the leftmost match. *)
Fixpoint _SLUG_YEAR_RE_search (s : str) : option (N * N * N * N) :=
  match slug_year_at s with
  | Some g => Some g
  | None =>
      match s with
      | [] => None
      | _ :: s' => _SLUG_YEAR_RE_search s'
      end
  end.

Definition _slug_year (page_path : str) : Z :=
  match _SLUG_YEAR_RE_search page_path with
  | Some (x, y, z, w) => Z.of_N (((x * 10 + y) * 10 + z) * 10 + w)
  | None => 0%Z
  end.

Local Open Scope Z_scope.

(** The [try] at the head of the row loop: [None] when it raises
    [IndexError] or [ValueError] and the row is skipped. *)
Definition decode_row (row : Row) : option (str * Z) :=
  match dimension_values row with
  | [] => None
  | path_value :: _ =>
      match metric_values row with
      | [] => None
      | views_value :: _ =>
          match py_int G views_value with
          | Some views => Some (path_value, views)
          | None => None
          end
      end
  end.

Definition fails_inclusion (path : str) : bool :=
  match _page_path_re self with
  | Some pattern => negb (re_match_start G pattern path)
  | None => false
  end.

Definition hits_exclusion (path : str) : bool :=
  match _page_path_exclude_re self with
  | Some pattern => re_search_any G pattern path
  | None => false
  end.

(** The body of [for row in response.rows]. *)
Definition process_row (st : LoopState) (row : Row) : LoopState :=
  match decode_row row with
  | None => st
  | Some (path, views) =>
      let seen := total_seen st + 1 in
      if fails_inclusion path || hits_exclusion path then
        {| underexposed := underexposed st; offset := offset st;
           total_seen := seen; filtered_count := filtered_count st + 1 |}
      else if views <? _threshold self then
        {| underexposed :=
             underexposed st ++ [{| page_path := path; page_views := views |}];
           offset := offset st; total_seen := seen;
           filtered_count := filtered_count st |}
      else
        {| underexposed := underexposed st; offset := offset st;
           total_seen := seen; filtered_count := filtered_count st |}
  end.

Definition advance (st : LoopState) (batch_size : Z) : LoopState :=
  {| underexposed := underexposed st; offset := offset st + batch_size;
     total_seen := total_seen st; filtered_count := filtered_count st |}.

(** The [while True] loop, [n] calls of [_fetch_batch] already made. *)
Fixpoint pagination (fuel n : nat) (st : LoopState) : loop_end :=
  match fuel with
  | O => OutOfFuel
  | S fuel' =>
      match _fetch_batch n (offset st) with
      | Raise e => ApiFailed (S n) e
      | Return response =>
          let batch_size := Z.of_nat (length (rows response)) in
          let total_available := row_count response in
          if batch_size =? 0 then Broke (S n) st
          else
            let st := fold_left process_row (rows response) st in
            let st := advance st batch_size in
            if offset st >=? total_available then Broke (S n) st
            else pagination fuel' (S n) st
      end
  end.

(** [list.sort(key=lambda r: _slug_year(r["page_path"]), reverse=True)]:
    stable, so pages of one year keep their order. *)
Fixpoint insert_by_year (p : Page) (sorted : list Page) : list Page :=
  match sorted with
  | [] => [p]
  | q :: rest =>
      if _slug_year (page_path p) <? _slug_year (page_path q)
      then q :: insert_by_year p rest
      else p :: sorted
  end.

Definition sort_newest_first (l : list Page) : list Page :=
  fold_right insert_by_year [] l.

(** The statements after the loop. *)
Definition rank_and_cap (retained : list Page) : list Page :=
  let ranked := sort_newest_first retained in
  if Z.of_nat (length ranked) >? _max_results self
  then slice_to ranked (_max_results self)
  else ranked.

Definition initial_state : LoopState :=
  {| underexposed := []; offset := 0; total_seen := 0; filtered_count := 0 |}.

(** [get_underexposed_pages]; [None] when the loop has not ended within
    the fuel. *)
Definition get_underexposed_pages (fuel : nat) : option (result (list Page)) :=
  match pagination fuel 0 initial_state with
  | Broke _ st => Some (Return (rank_and_cap (underexposed st)))
  | ApiFailed _ e => Some (Raise e)
  | OutOfFuel => None
  end.

End GA4.

(** * Predicates of the specification *)

(** [v] is the upper-cased form of a trimmed value the VIN check accepts. *)
Definition validated_vin (L : Lib) (v : str) : Prop :=
  exists candidate,
    strip candidate = candidate
    /\ _is_valid_vin candidate = true
    /\ v = upper (unicode_upper L) candidate.

(** A block that contributes no VIN and raises nothing. *)
Definition silent_block (L : Lib) (cfg : Config) (script : option str) : Prop :=
  probe_block L cfg script = Return None.

(** The exception a request ends in when it fails in a way the loop
    retries: an exception of the session, or the [HTTPError] of a 4xx or
    5xx status other than 404. *)
Definition retryable_failure (fetch_url : str) (o : get_outcome) : option exn :=
  match o with
  | GetRaised msg => Some (ConnectionError msg)
  | Got r => if (status_code r =? 404)%Z then None else raise_for_status fetch_url r
  end.

(** The request is answered with status 404. *)
Definition is_not_found (o : get_outcome) : bool :=
  match o with
  | Got r => (status_code r =? 404)%Z
  | GetRaised _ => false
  end.

(** [failed] requests, each followed by its wait of [2^i] seconds. *)
Definition backoff_events (fetch_url : str) (failed : Z) : list event :=
  flat_map (fun i => [Get fetch_url; Sleep (2 ^ i)]) (range failed).

(** The number of requests in a trace, and its waits in order. *)
Definition attempts_made (events : list event) : nat :=
  length (filter (fun e => match e with Get _ => true | Sleep _ => false end) events).

Definition waits (events : list event) : list Z :=
  flat_map (fun e => match e with Get _ => [] | Sleep s => [s] end) events.

(** The message of the exception [_fetch_html] raises at the end. *)
Definition all_failed_message (cfg : Config) (fetch_url : str) : str :=
  lit "All " ++ str_of_int (max_retries cfg) ++ lit " attempts failed for "
  ++ fetch_url.





(** The loop has ended, by a [break] or by an exception, after [k] calls
    of [_fetch_batch]. *)
Definition ended_after (e : loop_end) (k : nat) : Prop :=
  match e with
  | Broke k' _ | ApiFailed k' _ => k' = k
  | OutOfFuel => False
  end.

(** [ceil(total / batch)] for a positive [batch], and 1 at least. *)
Definition batches_needed (total batch : Z) : nat :=
  Z.to_nat (Z.max 1 ((total + batch - 1) / batch)).

(** The row came out of some answer of the server and decodes to the
    page. *)
Definition reported (G : GaLib) (server : nat -> Z -> result Report) (p : Page) : Prop :=
  exists n off response row,
    server n off = Return response
    /\ In row (rows response)
    /\ decode_row G row = Some (page_path p, page_views p).

(** What the row loop guarantees of a page it appends: the row was
    reported by the server, passed both path filters, and its count is
    below the threshold. *)
Definition retained_ok (G : GaLib) (self : GA4Client)
  (server : nat -> Z -> result Report) (p : Page) : Prop :=
  (page_views p < _threshold self)%Z
  /\ fails_inclusion G self (page_path p) = false
  /\ hits_exclusion G self (page_path p) = false
  /\ reported G server p.

(** [d.get(key)] on the items of a [dict] with values of any type. *)
Fixpoint dict_lookup {V : Type} (key : str) (d : list (str * V)) : option V :=
  match d with
  | [] => None
  | (k, v) :: d' => if str_eqb k key then Some v else dict_lookup key d'
  end.

(** The query [_append_utm] hands to [urlencode]: the parsed query of the
    URL updated with the tracking parameters. *)
Definition merged_query (cfg : Config) (existing : list (str * list str)) :
  list (str * list str) :=
  fold_left (fun d kv => dict_set (fst kv) [snd kv] d) (utm_params cfg) existing.

(** The seconds a trace spends waiting. *)
Definition total_wait (events : list event) : Z :=
  fold_right Z.add 0%Z (waits events).

(** A response [raise_for_status] lets through: any status outside
    400..599. *)
Definition passes_status (r : Response) : bool :=
  ((status_code r <? 400) || (600 <=? status_code r))%Z.

(** The pages one row of a report contributes to [underexposed]. *)
Definition keep_row (G : GaLib) (self : GA4Client) (row : Row) : list Page :=
  match decode_row G row with
  | None => []
  | Some (path, views) =>
      if fails_inclusion G self path || hits_exclusion G self path then []
      else if (views <? _threshold self)%Z
           then [{| page_path := path; page_views := views |}]
           else []
  end.

(** The batches the loop works through, in order: those with rows, up to
    and including the first that reaches the total it reports. *)
Fixpoint batches_fetched (server : nat -> Z -> result Report)
  (fuel n : nat) (off : Z) : list Report :=
  match fuel with
  | O => []
  | S fuel' =>
      match server n off with
      | Raise _ => []
      | Return response =>
          let size := Z.of_nat (length (rows response)) in
          if (size =? 0)%Z then []
          else if (off + size >=? row_count response)%Z then [response]
               else response :: batches_fetched server fuel' (S n) (off + size)%Z
      end
  end.

(** The rows of a report that decode. *)
Definition decodable (G : GaLib) (l : list Row) : list Row :=
  filter (fun row => match decode_row G row with Some _ => true | None => false end) l.

(** The decodable rows one of the two path filters drops. *)
Definition filtered_out (G : GaLib) (self : GA4Client) (l : list Row) : list Row :=
  filter (fun row =>
            match decode_row G row with
            | Some (path, _) => fails_inclusion G self path || hits_exclusion G self path
            | None => false
            end) l.

(** ** csv_exporter.py *)

(** The values the rows and records hold. *)
Inductive pyval : Type :=
| VNone
| VStr (s : str)
| VInt (n : Z).

(** A [dict] with string keys, as its items in insertion order. *)
Definition pydict : Type := list (str * pyval).

(** [str(v)], as an f-string formats a value. *)
Definition val_str (v : pyval) : str :=
  match v with
  | VNone => lit "None"
  | VStr s => s
  | VInt n => str_of_int n
  end.

(** Truthiness of a value. *)
Definition val_truthy (v : pyval) : bool :=
  match v with
  | VNone => false
  | VStr s => truthy s
  | VInt n => negb (n =? 0)%Z
  end.

(** [d.get(key, default)] *)
Definition get_or (d : pydict) (key : str) (default : pyval) : pyval :=
  match dict_lookup key d with
  | Some v => v
  | None => default
  end.

(** [x or ""] for an optional string and for a string. *)
Definition or_empty (x : option str) : str :=
  match x with
  | Some s => if truthy s then s else []
  | None => []
  end.

(** The string a status stands for in [ScrapeResult.scrape_status]. *)
Definition status_str (s : status) : str :=
  match s with
  | success => lit "success"
  | failed => lit "failed"
  | not_found => lit "not_found"
  end.

(** An element of the list [get_underexposed_pages] returns, as the dict
    it is. *)
Definition page_dict (p : Page) : pydict :=
  [(lit "page_path", VStr (page_path p)); (lit "page_views", VInt (page_views p))].

(** The body of the loop of [records_to_dicts]. *)
Definition record_of (domain : str) (ga4_row : pydict) (scrape : ScrapeResult) : pydict :=
  let page_path := get_or ga4_row (lit "page_path") (VStr []) in
  let full_url :=
    if truthy (full_url scrape) then full_url scrape
    else lit "https://" ++ domain ++ val_str page_path in
  [(lit "page_path", page_path);
   (lit "full_url", VStr full_url);
   (lit "page_views", get_or ga4_row (lit "page_views") (VStr []));
   (lit "stock_number", VStr (or_empty (stock_number scrape)));
   (lit "vin_number", VStr (or_empty (vin_number scrape)));
   (lit "scraped_at", VStr (or_empty (Some (scraped_at scrape))));
   (lit "scrape_status", VStr (or_empty (Some (status_str (scrape_status scrape)))));
   (lit "error_message", VStr (or_empty (error_message scrape)))].

(** [records_to_dicts]: [zip] pairs the two lists up to the shorter. *)
Definition records_to_dicts (ga4_rows : list pydict)
  (scrape_results : list ScrapeResult) (domain : str) : list pydict :=
  map (fun pair => record_of domain (fst pair) (snd pair))
    (combine ga4_rows scrape_results).

Definition CSV_COLUMNS : list str := [lit "stock_number"; lit "vin_number"].

(** The characters that make the writer quote a field in the default
    dialect: the delimiter, the quote character and those of the line
    terminator. *)
Definition csv_special (c : char) : bool :=
  (c =? ch ",") || (c =? 0x22) || (c =? 0x0D) || (c =? 0x0A).

(** One field as [csv.writer] writes it with [QUOTE_MINIMAL]: quoted, with
    its quote characters doubled, when it holds a special character. *)
Definition csv_field (s : str) : str :=
  if existsb csv_special s
  then [0x22] ++ flat_map (fun c => if c =? 0x22 then [0x22; 0x22] else [c]) s
       ++ [0x22]
  else s.

Fixpoint join_fields (fields : list str) : str :=
  match fields with
  | [] => []
  | [f] => f
  | f :: rest => f ++ ch "," :: join_fields rest
  end.

(** One row: the fields joined by commas and ended by CR LF; a row that is
    one empty field is written as a pair of quotes. *)
Definition csv_line (fields : list str) : str :=
  match fields with
  | [[]] => [0x22; 0x22]
  | _ => join_fields (map csv_field fields)
  end ++ [0x0D; 0x0A].

(** A value as the writer writes it: nothing for [None]. *)
Definition cell_text (v : pyval) : str :=
  match v with
  | VNone => []
  | VStr s => s
  | VInt n => str_of_int n
  end.

(** [DictWriter._dict_to_list] with [extrasaction="ignore"] and
    [restval=""]. *)
Definition row_cells (fieldnames : list str) (rowdict : pydict) : list str :=
  map (fun key => cell_text (get_or rowdict key (VStr []))) fieldnames.

(** What [writeheader] and [writerows] write. *)
Definition csv_text (records : list pydict) : str :=
  csv_line CSV_COLUMNS
  ++ flat_map (fun r => csv_line (row_cells CSV_COLUMNS r)) records.

(** The file system as [write_csv] meets it. *)
Record FileSystem : Type := {
  (** [os.path.dirname] *)
  dirname : str -> str;
  (** [os.makedirs(d, exist_ok=True)] *)
  makedirs : str -> result unit;
  (** [open(path, "w", newline="", encoding="utf-8")] and the writes that
      follow *)
  open_write : str -> result unit
}.

Definition ensure_output_dir (fs : FileSystem) (output_path : str) : result unit :=
  let directory := dirname fs output_path in
  if truthy directory then makedirs fs directory else Return tt.

(** [write_csv]: the path and the text of the file written. *)
Definition write_csv (fs : FileSystem) (records : list pydict) (output_path : str) :
  result (str * str) :=
  bind (ensure_output_dir fs output_path) (fun _ =>
  bind (open_write fs output_path) (fun _ =>
  Return (output_path, csv_text records))).

(** ** main.py: the scrape loop and the export *)

(** What the loop of [main] does to the outside world: the requests and
    waits of one page, and the delay between two pages. *)
Inductive main_event : Type :=
| Scraped (events : list event)
| Delay.

(** "Step 2: Scrape each page"; [net i] is the network as the scrape of
    page [i] meets it. *)
Fixpoint scrape_loop (L : Lib) (cfg : Config)
  (net : nat -> str -> nat -> get_outcome) (domain : str) (i : nat)
  (pages : list Page) : list main_event * result (list ScrapeResult) :=
  match pages with
  | [] => ([], Return [])
  | row :: rest =>
      let url := lit "https://" ++ domain ++ page_path row in
      let (events, r) := scrape_page L cfg (net i) url in
      match r with
      | Raise e => ([Scraped events], Raise e)
      | Return scraped =>
          let pause := match rest with [] => [] | _ :: _ => [Delay] end in
          let (later, rs) := scrape_loop L cfg net domain (S i) rest in
          (Scraped events :: pause ++ later,
           bind rs (fun l => Return (scraped :: l)))
      end
  end.

(** The test of the comprehension of "Step 3". *)
Definition has_identifiers (r : pydict) : bool :=
  val_truthy (get_or r (lit "stock_number") VNone)
  && val_truthy (get_or r (lit "vin_number") VNone).

(** "Step 3: Export to CSV": the records handed to [write_csv]. *)
Definition export_records (pages : list Page) (results : list ScrapeResult)
  (domain : str) : list pydict :=
  filter has_identifiers (records_to_dicts (map page_dict pages) results domain).

(** The delays and the scrapes in a trace of the loop. *)
Definition delays (events : list main_event) : nat :=
  length (filter (fun e => match e with Delay => true | Scraped _ => false end) events).

Definition scrapes (events : list main_event) : nat :=
  length (filter (fun e => match e with Delay => false | Scraped _ => true end) events).

(** A scrape result with both identifiers present and not empty. *)
Definition identified (r : ScrapeResult) : bool :=
  truthy (or_empty (stock_number r)) && truthy (or_empty (vin_number r)).

(** ** scraper.py: [_find_vehicle_id_section] *)

(** A parsed document as a tree: tags with their children, and the
    strings [get_text] yields (comments and the text of scripts and styles
    are not among them). *)
Inductive node : Type :=
| Str (s : str)
| Tag (name : str) (children : list node).

Definition children_of (n : node) : list node :=
  match n with
  | Str _ => []
  | Tag _ children => children
  end.

(** The strings of [get_text(strip=True)]: every string below the node
    in document order, trimmed, the empty ones left out. *)
Fixpoint stripped_strings (n : node) : list str :=
  match n with
  | Str s => match strip s with [] => [] | t => [t] end
  | Tag _ children => flat_map stripped_strings children
  end.

(** [tag.get_text(strip=True)]: the strings joined by nothing. *)
Definition get_text_strip (n : node) : str := concat (stripped_strings n).

(** What [str.lower()] takes from the Unicode database: the full
    lower-case mapping of a code point, and the two properties its one
    rule of context reads. *)
Record Casing := {
  lower_full : char -> list char;
  cased : char -> bool;
  case_ignorable : char -> bool
}.

(** One code point lowered without context: [A-Z] shifted, the rest of
    ASCII kept, the others by the table. *)
Definition lower_char (U : Casing) (c : char) : list char :=
  if in_range (ch "A") (ch "Z") c then [c + 32]
  else if c <? 128 then [c]
  else lower_full U c.

(** The first code point of [s] that is not case-ignorable. *)
Fixpoint first_solid (U : Casing) (s : str) : option char :=
  match s with
  | [] => None
  | c :: s' => if case_ignorable U c then first_solid U s' else Some c
  end.

(** The capital sigma (U+03A3) is final when a cased code point comes
    before it and none after it, case-ignorable ones passed over;
    [before] is read from the sigma backwards. *)
Definition final_sigma (U : Casing) (before after : str) : bool :=
  match first_solid U before with
  | Some c =>
      cased U c
      && match first_solid U after with
         | Some c' => negb (cased U c')
         | None => true
         end
  | None => false
  end.

Definition capital_sigma : char := 931.

(** [str.lower()] from a position on; [before] holds the code points
    already passed, the nearest first. A capital sigma becomes U+03C2
    when final and U+03C3 otherwise. *)
Fixpoint lower_from (U : Casing) (before s : str) : str :=
  match s with
  | [] => []
  | c :: s' =>
      (if c =? capital_sigma
       then [if final_sigma U before s' then 962 else 963]
       else lower_char U c)
      ++ lower_from U (c :: before) s'
  end.

Definition lower (U : Casing) (s : str) : str := lower_from U [] s.

(** [p in s] for strings. *)
Fixpoint substring (p s : str) : bool :=
  match strip_prefix p s with
  | Some _ => true
  | None =>
      match s with
      | [] => false
      | _ :: s' => substring p s'
      end
  end.

Definition heading_names : list str :=
  [lit "h1"; lit "h2"; lit "h3"; lit "h4"; lit "h5"; lit "th"; lit "td";
   lit "div"; lit "span"].

(** [tag.name in ("h1", ..., "span")] *)
Definition heading_name (n : node) : bool :=
  match n with
  | Str _ => false
  | Tag name _ => existsb (str_eqb name) heading_names
  end.

(** The test [soup.find] is given, on one tag. *)
Definition is_heading (U : Casing) (n : node) : bool :=
  heading_name n
  && substring (lit "vehicle identification") (lower U (get_text_strip n)).

Section Find.

Variable U : Casing.

(** The search of [soup.find] from a node on, the node included, in
    document order: the first tag that passes the test, with its
    ancestors, nearest first. *)
Fixpoint find_heading (ancestors : list node) (n : node) : option (node * list node) :=
  match n with
  | Str _ => None
  | Tag _ children =>
      if is_heading U n then Some (n, ancestors)
      else (fix among (l : list node) : option (node * list node) :=
              match l with
              | [] => None
              | c :: l' =>
                  match find_heading (n :: ancestors) c with
                  | Some found => Some found
                  | None => among l'
                  end
              end) children
  end.

(** The same search over a list of siblings. *)
Fixpoint find_among (ancestors : list node) (l : list node) : option (node * list node) :=
  match l with
  | [] => None
  | c :: l' =>
      match find_heading ancestors c with
      | Some found => Some found
      | None => find_among ancestors l'
      end
  end.

(** [soup.find(...)]: the descendants of the document, not the document
    itself. *)
Definition soup_find (soup : node) : option (node * list node) :=
  find_among [soup] (children_of soup).

Definition _find_vehicle_id_section (soup : node) : option node :=
  match soup_find soup with
  | None => None
  | Some (heading, ancestors) =>
      match ancestors with
      | container :: grand :: _ => Some grand
      | [container] => Some container
      | [] => None
      end
  end.

End Find.

(** [n] lies below [top]; [inner] are the nodes between them, nearest to
    [n] first and [top] last (none when [n] is [top] itself). *)
Fixpoint path_from (n : node) (inner : list node) (top : node) : Prop :=
  match inner with
  | [] => n = top
  | a :: rest => In n (children_of a) /\ path_from a rest top
  end.

(** Two code points that are the same or both outside ASCII. *)
Definition same_ascii (a b : char) : Prop := a = b \/ (128 <= a /\ 128 <= b).

(** * Test data *)

(** A 17-character value whose eleventh character is the Kelvin sign
    U+212A in place of the letter K. *)
Definition kelvin_vin : str := lit "1FTFW1ET1E" ++ [0x212A] ++ lit "D12345".

Definition quoted (s : str) : str := [0x22] ++ s ++ [0x22].

(** The block of the specification's scenario,
    [{"vehicleIdentificationNumber": "1ftfw1et1ekd12345"}]. *)
Definition vin_block : str :=
  lit "{" ++ quoted (lit "vehicleIdentificationNumber") ++ lit ": "
  ++ quoted (lit "1ftfw1et1ekd12345") ++ lit "}".

(** A block whose object has a VIN of its own next to an empty graph,
    [{"@graph": [], "vin": "1FTFW1ET1EKD12345"}]. *)
Definition graph_block : str :=
  lit "{" ++ quoted (lit "@graph") ++ lit ": [], " ++ quoted (lit "vin")
  ++ lit ": " ++ quoted (lit "1FTFW1ET1EKD12345") ++ lit "}".

(** [json.loads] on the two blocks above (any other text is taken as
    undecodable). *)
Definition example_loads (raw : str) : result json :=
  if str_eqb raw vin_block then
    Return (JDict [(lit "vehicleIdentificationNumber", JStr (lit "1ftfw1et1ekd12345"))])
  else if str_eqb raw graph_block then
    Return (JDict [(lit "@graph", JList []); (lit "vin", JStr (lit "1FTFW1ET1EKD12345"))])
  else Raise (JSONDecodeError (lit "Expecting value")).

(** A page that carries the given blocks; its text has the labels the
    text patterns look for. *)
Definition page_with (blocks : list str) : soup :=
  {| ld_json_scripts := map Some blocks; section_text := None;
     page_text := lit "2014 Ford F-150 VIN: on request STOCK: on request" |}.

(** A page without blocks and without the labels. *)
Definition plain_page : soup :=
  {| ld_json_scripts := []; section_text := None;
     page_text := lit "2014 Ford F-150" |}.

(** A pattern without metacharacters is found in a subject that contains
    it, and matches at the start of one that begins with it. *)
Fixpoint contains (p s : str) : bool :=
  match strip_prefix p s with
  | Some _ => true
  | None =>
      match s with
      | [] => false
      | _ :: s' => contains p s'
      end
  end.

(** [urlparse] as far as the examples need it: a bracket that is opened
    and not closed makes it raise, as an unmatched bracket in the network
    location does; any other URL is kept whole in [path]. *)
Definition example_urlparse (url : str) : result ParseResult :=
  if existsb (N.eqb (ch "[")) url && negb (existsb (N.eqb (ch "]")) url)
  then Raise (ValueError (lit "Invalid IPv6 URL"))
  else Return {| scheme := []; netloc := []; path := url; params := [];
                 query := []; fragment := [] |}.

(** Libraries for the examples: every page parses to the document given;
    the text patterns are plain labels without a group, so that
    [group(1)] raises on a text where one of them is found. *)
Definition example_lib (doc : soup) : Lib :=
  {| unicode_upper := fun c => [c];
     json_loads := example_loads;
     BeautifulSoup := fun _ => Return doc;
     re_search := fun p s => if contains p s then Some NoSuchGroup else None;
     urlparse := example_urlparse;
     parse_qs := fun _ => [];
     urlencode := fun _ => lit "utm_source=ga4";
     urlunparse := fun p => path p ++ lit "?" ++ query p;
     utc_now := lit "2026-01-01T00:00:00+00:00" |}.

Definition example_config (retries : Z) : Config :=
  {| max_retries := retries; utm_source := lit "ga4"; utm_medium := [];
     vin_text_pattern := lit "VIN:"; stock_patterns := [lit "STOCK:"];
     jsonld_vin_fields :=
       [lit "vehicleIdentificationNumber"; lit "vin"; lit "serialNumber"] |}.

(** A server that refuses every connection. *)
Definition refusing (_ : str) (_ : nat) : get_outcome := GetRaised (lit "refused").

(** A server that answers every request with 404. *)
Definition missing (_ : str) (_ : nat) : get_outcome :=
  Got {| status_code := 404; reason := lit "Not Found"; text := [] |}.

(** A server that serves an empty page. *)
Definition serving (_ : str) (_ : nat) : get_outcome :=
  Got {| status_code := 200; reason := lit "OK"; text := lit "<html></html>" |}.

Definition good_url : str := lit "https://dealer.example/inventory/2020-x/".

(** The same page on a host with an unmatched bracket. *)
Definition bad_url : str := lit "https://[dealer.example/inventory/2020-x/".

(** [int] on a plain decimal numeral with an optional minus sign (the
    examples use no other form). *)
Fixpoint digits_value (acc : Z) (s : str) : option Z :=
  match s with
  | [] => Some acc
  | c :: s' =>
      if in_range (ch "0") (ch "9") c
      then digits_value (acc * 10 + Z.of_N (c - 48)) s'
      else None
  end.

Definition example_int (s : str) : option Z :=
  match s with
  | [] => None
  | c :: s' =>
      if c =? ch "-"
      then match s' with
           | [] => None
           | _ :: _ => option_map Z.opp (digits_value 0 s')
           end
      else digits_value 0 s
  end.

Definition example_galib : GaLib :=
  {| py_int := example_int;
     unicode_decimal := fun _ => None;
     re_match_start :=
       fun p s => match strip_prefix p s with Some _ => true | None => false end;
     re_search_any := contains |}.

Definition example_client (cap : Z) : GA4Client :=
  GA4Client_init
    {| pageview_threshold := 5; max_results := cap;
       page_path_pattern := lit "/inventory/";
       page_path_exclude_pattern := lit "/sold/" |}.

Definition row_of (page views : string) : Row :=
  {| dimension_values := [lit page]; metric_values := [lit views] |}.

(** The two pages of the specification's scenario, in one batch. *)
Definition two_pages (_ : nat) (_ : Z) : result Report :=
  Return {| rows := [row_of "/inventory/2020-x" "1"; row_of "/inventory/2024-x" "2"];
            row_count := 2 |}.

Definition page_2020 : Page :=
  {| page_path := lit "/inventory/2020-x"; page_views := 1 |}.

Definition page_2024 : Page :=
  {| page_path := lit "/inventory/2024-x"; page_views := 2 |}.

(** A report whose only row carries a negative count. *)
Definition negative_count (_ : nat) (_ : Z) : result Report :=
  Return {| rows := [row_of "/inventory/2020-x" "-1"]; row_count := 1 |}.

(** A server whose reported total stays ahead of the offset: one row per
    batch, and a total two rows beyond the offset asked for. *)
Definition growing (_ : nat) (off : Z) : result Report :=
  Return {| rows := [row_of "/inventory/2020-x" "1"]; row_count := off + 2 |}.

(** A server that refuses two connections and then serves the page. *)
Definition flaky (_ : str) (k : nat) : get_outcome :=
  if (k <? 2)%nat then GetRaised (lit "refused")
  else Got {| status_code := 200; reason := lit "OK"; text := lit "<html></html>" |}.


(** The example libraries for a URL whose query is
    [utm_source=old&page=2]. *)
Definition query_lib : Lib :=
  {| unicode_upper := unicode_upper (example_lib plain_page);
     json_loads := json_loads (example_lib plain_page);
     BeautifulSoup := BeautifulSoup (example_lib plain_page);
     re_search := re_search (example_lib plain_page);
     urlparse := urlparse (example_lib plain_page);
     parse_qs := fun _ => [(lit "utm_source", [lit "old"]); (lit "page", [lit "2"])];
     urlencode := urlencode (example_lib plain_page);
     urlunparse := urlunparse (example_lib plain_page);
     utc_now := utc_now (example_lib plain_page) |}.

(** A block whose graph is a number, [{"@graph": 5}]. *)
Definition number_graph_block : str :=
  lit "{" ++ quoted (lit "@graph") ++ lit ": 5}".

(** The example libraries with a decoder that also knows that block. *)
Definition graph_lib (doc : soup) : Lib :=
  {| unicode_upper := unicode_upper (example_lib doc);
     json_loads :=
       fun raw => if str_eqb raw number_graph_block
                  then Return (JDict [(lit "@graph", JInt 5)])
                  else example_loads raw;
     BeautifulSoup := BeautifulSoup (example_lib doc);
     re_search := re_search (example_lib doc);
     urlparse := urlparse (example_lib doc);
     parse_qs := parse_qs (example_lib doc);
     urlencode := urlencode (example_lib doc);
     urlunparse := urlunparse (example_lib doc);
     utc_now := utc_now (example_lib doc) |}.

(** A value with the long s U+017F as its ninth character, and a page
    whose only block carries it in the field [vin]. *)
Definition long_s_vin : str := lit "1FTFW1ET" ++ [0x17F] ++ lit "EKD12345".

Definition long_s_block : str :=
  lit "{" ++ quoted (lit "vin") ++ lit ": " ++ quoted long_s_vin ++ lit "}".

Definition long_s_page : soup :=
  {| ld_json_scripts := [Some long_s_block]; section_text := None;
     page_text := lit "2014 Ford F-150" |}.

(** The example libraries with the upper case of the long s, and a
    decoder that knows the block above. *)
Definition table_lib (doc : soup) : Lib :=
  {| unicode_upper := fun c => if c =? 0x17F then [ch "S"] else [c];
     json_loads :=
       fun raw => if str_eqb raw long_s_block
                  then Return (JDict [(lit "vin", JStr long_s_vin)])
                  else example_loads raw;
     BeautifulSoup := BeautifulSoup (example_lib doc);
     re_search := re_search (example_lib doc);
     urlparse := urlparse (example_lib doc);
     parse_qs := parse_qs (example_lib doc);
     urlencode := urlencode (example_lib doc);
     urlunparse := urlunparse (example_lib doc);
     utc_now := utc_now (example_lib doc) |}.

(** Libraries of a site whose pages carry the block of the scenario and a
    stock label the stock pattern captures; the VIN text pattern is not
    found. *)
Definition shop_lib : Lib :=
  {| unicode_upper := fun c => [c];
     json_loads := example_loads;
     BeautifulSoup := fun _ => Return (page_with [vin_block]);
     re_search :=
       fun p _ => if str_eqb p (lit "STOCK:") then Some (Group (lit " m71097 "))
                  else None;
     urlparse := example_urlparse;
     parse_qs := fun _ => [];
     urlencode := fun _ => lit "utm_source=ga4";
     urlunparse := fun p => path p ++ lit "?" ++ query p;
     utc_now := lit "2026-01-01T00:00:00+00:00" |}.

(** The first page is served, every other page is missing. *)
Definition first_page_only (i : nat) : str -> nat -> get_outcome :=
  match i with
  | O => serving
  | S _ => missing
  end.

(** Case tables of a page in plain ASCII: letters are cased, the
    apostrophe is case-ignorable. *)
Definition plain_casing : Casing :=
  {| lower_full := fun c => [c];
     cased := fun c => in_range (ch "A") (ch "Z") c || in_range (ch "a") (ch "z") c;
     case_ignorable := fun c => c =? 39 |}.

(** A page as the parser builds it: the heading of the section in a table
    cell, inside two nested [div]s of the body. *)
Definition section_heading : node := Tag (lit "h3") [Str (lit " Vehicle Identification ")].

Definition section_cell : node :=
  Tag (lit "section") [section_heading; Tag (lit "p") [Str (lit "VIN: 1FTFW1ET1EKD12345")]].

Definition inner_div : node := Tag (lit "div") [section_cell].

Definition outer_div : node := Tag (lit "div") [Tag (lit "p") [Str (lit "2014 Ford")]; inner_div].

Definition page_body : node := Tag (lit "body") [outer_div].

Definition page_html : node := Tag (lit "html") [Tag (lit "head") []; page_body].

Definition page_document : node := Tag (lit "[document]") [page_html].

(** * Properties of the VIN check *)

Lemma lstrip_head (s : str) (c : char) (t : str) :
  lstrip s = c :: t -> is_space c = false.
Proof.
  induction s as [|a s IH]; simpl; [discriminate|].
  destruct (is_space a) eqn:Ea; [exact IH|].
  intros H; injection H as -> _; exact Ea.
Qed.

Lemma rstrip_last (s t : str) (c : char) :
  rstrip s = t ++ [c] -> is_space c = false.
Proof.
  unfold rstrip; intros H.
  apply (f_equal (@rev char)) in H.
  rewrite rev_involutive, rev_app_distr in H; simpl in H.
  exact (lstrip_head _ _ _ H).
Qed.

Lemma strip_last (s t : str) (c : char) :
  strip s = t ++ [c] -> is_space c = false.
Proof. unfold strip; apply rstrip_last. Qed.

Lemma lstrip_fixed (s : str) :
  match s with [] => True | c :: _ => is_space c = false end -> lstrip s = s.
Proof. destruct s as [|c s]; simpl; [reflexivity|]; intros ->; reflexivity. Qed.

(** [strip] changes nothing on a string it has produced. *)
Lemma strip_idempotent (s : str) : strip (strip s) = strip s.
Proof.
  assert (Hl : lstrip (strip s) = strip s).
  { apply lstrip_fixed. unfold strip, rstrip.
    destruct (lstrip s) as [|a u] eqn:E; [reflexivity|].
    pose proof (lstrip_head _ _ _ E) as Ha.
    assert (Hr : exists v, lstrip (rev (a :: u)) = v ++ [a]).
    { simpl. generalize (rev u); intros w.
      induction w as [|b w IH]; simpl.
      - rewrite Ha; exists []; reflexivity.
      - destruct (is_space b); [exact IH|].
        exists (b :: w); reflexivity. }
    destruct Hr as [v ->]. rewrite rev_app_distr; simpl. exact Ha. }
  unfold strip at 1. rewrite Hl. unfold rstrip.
  assert (Hr : lstrip (rev (strip s)) = rev (strip s)).
  { apply lstrip_fixed.
    destruct (rev (strip s)) as [|c w] eqn:E; [exact I|].
    apply (f_equal (@rev char)) in E. rewrite rev_involutive in E.
    simpl in E. exact (strip_last _ _ _ E). }
  rewrite Hr. apply rev_involutive.
Qed.

Lemma vin_set_repeat_spec (n : nat) (s rest : str) :
  vin_set_repeat n s = Some rest <->
  exists pre, s = pre ++ rest /\ length pre = n
              /\ forallb (set_ignorecase vin_set) pre = true.
Proof.
  revert s; induction n as [|n IH]; intros s; simpl.
  - split.
    + intros [= ->]. exists []; auto.
    + intros (pre & -> & Hlen & _).
      apply length_zero_iff_nil in Hlen; subst; reflexivity.
  - destruct s as [|c s].
    + split; [discriminate|].
      intros (pre & H & Hlen & _). destruct pre; discriminate.
    + destruct (set_ignorecase vin_set c) eqn:Ec.
      * rewrite IH. split.
        -- intros (pre & -> & Hlen & Hall).
           exists (c :: pre); simpl; rewrite Ec, Hall, Hlen; auto.
        -- intros (pre & H & Hlen & Hall).
           destruct pre as [|a pre]; [discriminate|].
           simpl in *. injection H as <- ->. injection Hlen as Hlen.
           apply andb_true_iff in Hall as [_ Hall]. exists pre; auto.
      * split; [discriminate|].
        intros (pre & H & Hlen & Hall).
        destruct pre as [|a pre]; [discriminate|].
        simpl in *. injection H as <- ->.
        rewrite Ec in Hall; discriminate.
Qed.

(** What the check accepts: after trimming, exactly 17 characters of the
    set, case ignored the way the regex engine ignores it. *)
Lemma is_valid_vin_iff (value : str) :
  _is_valid_vin value = true <->
  length (strip value) = 17%nat
  /\ forallb (set_ignorecase vin_set) (strip value) = true.
Proof.
  unfold _is_valid_vin, _VIN_RE_match.
  destruct (vin_set_repeat 17 (strip value)) as [rest|] eqn:E.
  - apply vin_set_repeat_spec in E as (pre & Hs & Hlen & Hall).
    destruct rest as [|c [|d rest]]; simpl.
    + rewrite app_nil_r in Hs; rewrite Hs; tauto.
    + pose proof (strip_last _ _ _ Hs) as Hc.
      destruct (N.eqb_spec c 0x0A) as [->|_]; [discriminate Hc|].
      split; [discriminate|]. intros [H _].
      rewrite Hs, length_app in H; simpl in H; lia.
    + split; [discriminate|]. intros [H _].
      rewrite Hs, length_app in H; simpl in H; lia.
  - split; [discriminate|]. intros [Hlen Hall].
    assert (vin_set_repeat 17 (strip value) = Some []) as H.
    { apply vin_set_repeat_spec. exists (strip value).
      rewrite app_nil_r; auto. }
    congruence.
Qed.

Lemma forallb_below (f : N -> bool) (n : N) :
  forallb f (map N.of_nat (seq 0 (N.to_nat n))) = true ->
  forall c, c < n -> f c = true.
Proof.
  intros H c Hc. rewrite forallb_forall in H. apply H.
  apply in_map_iff. exists (N.to_nat c). split; [lia|].
  apply in_seq. lia.
Qed.

(** The set with case ignored is the specification's alphabet and two
    code points more: the long s U+017F and the Kelvin sign U+212A. *)
Lemma set_ignorecase_vin_set (c : char) :
  set_ignorecase vin_set c = spec_vin_char c || (c =? 0x17F) || (c =? 0x212A).
Proof.
  destruct (N.ltb_spec c 8500) as [Hlt|Hge].
  - apply Bool.eqb_prop.
    revert c Hlt.
    apply (forallb_below
             (fun c => Bool.eqb (set_ignorecase vin_set c)
                         (spec_vin_char c || (c =? 0x17F) || (c =? 0x212A)))).
    vm_compute. reflexivity.
  - assert (Hset : forall x, 128 <= x -> vin_set x = false).
    { intros x Hx. unfold vin_set, in_range, ch; simpl.
      repeat match goal with
             | |- context [?a <=? ?b] => destruct (N.leb_spec a b); try lia
             | |- context [?a =? ?b] => destruct (N.eqb_spec a b); try lia
             end; reflexivity. }
    assert (Hvar : case_variants c = [c]).
    { unfold case_variants, in_range, ch; simpl.
      repeat match goal with
             | |- context [?a <=? ?b] => destruct (N.leb_spec a b); try lia
             | |- context [?a =? ?b] => destruct (N.eqb_spec a b); try lia
             end; reflexivity. }
    unfold set_ignorecase, spec_vin_char. rewrite Hvar. cbn [existsb].
    rewrite (Hset c) by lia.
    assert (in_range (ch "a") (ch "z") c = false) as ->.
    { unfold in_range, ch; simpl.
      destruct (N.leb_spec 97 c), (N.leb_spec c 122); try lia; reflexivity. }
    destruct (N.eqb_spec c 0x17F), (N.eqb_spec c 0x212A); try lia; reflexivity.
Qed.

(** Every value the specification's rule accepts, the check accepts. *)
Lemma spec_is_valid_accepted (value : str) :
  spec_is_valid value = true -> _is_valid_vin value = true.
Proof.
  unfold spec_is_valid. rewrite andb_true_iff, Nat.eqb_eq.
  intros [Hlen Hall]. apply is_valid_vin_iff. split; [exact Hlen|].
  rewrite forallb_forall in *. intros c Hc.
  rewrite set_ignorecase_vin_set, (Hall c Hc). reflexivity.
Qed.

(** On a value free of the long s and of the Kelvin sign the check is the
    specification's rule. *)
Lemma is_valid_vin_plain (value : str) :
  ~ In 0x17F (strip value) -> ~ In 0x212A (strip value) ->
  _is_valid_vin value = spec_is_valid value.
Proof.
  intros Hs Hk. apply eq_true_iff_eq.
  rewrite is_valid_vin_iff. unfold spec_is_valid.
  rewrite andb_true_iff, Nat.eqb_eq, !forallb_forall.
  split; intros [Hlen Hall]; (split; [exact Hlen|]); intros c Hc;
    specialize (Hall c Hc); rewrite set_ignorecase_vin_set in *.
  - destruct (N.eqb_spec c 0x17F) as [E1|_]; [subst c; contradiction|].
    destruct (N.eqb_spec c 0x212A) as [E2|_]; [subst c; contradiction|].
    rewrite !orb_false_r in Hall. exact Hall.
  - rewrite Hall. reflexivity.
Qed.

(** C6 (code defect).  The check accepts a 17-character value that holds
    the Kelvin sign U+212A, which is no letter A-Z and no digit: with
    [re.IGNORECASE] and no [re.ASCII] the set [J-N] also matches the code
    point whose lower case is [k].  The rule of the specification, and the
    ISO 3779 format the source names, reject the value. *)
Theorem is_valid_vin_accepts_kelvin_sign :
  _is_valid_vin kelvin_vin = true /\ spec_is_valid kelvin_vin = false.
Proof. split; vm_compute; reflexivity. Qed.

(** * Properties of the VIN extraction *)

Section Extraction.

Variable L : Lib.
Variable cfg : Config.

Lemma validated_strip (raw : str) :
  _is_valid_vin (strip raw) = true ->
  validated_vin L (upper (unicode_upper L) (strip raw)).
Proof.
  intros H. exists (strip raw). auto using strip_idempotent.
Qed.

Lemma probe_fields_sound (fields : list str) (obj : list (str * json)) (v : str) :
  probe_fields L fields obj = Some v -> validated_vin L v.
Proof.
  induction fields as [|f fields IH]; simpl; [discriminate|].
  destruct (dict_get f obj) as [[| | | |raw| |]|]; auto.
  destruct (truthy raw); auto.
  destruct (_is_valid_vin (strip raw)) eqn:E; auto.
  intros [= <-]. apply validated_strip, E.
Qed.

Lemma probe_candidates_sound (candidates : list json) (v : str) :
  probe_candidates L cfg candidates = Some v -> validated_vin L v.
Proof.
  induction candidates as [|obj rest IH]; simpl; [discriminate|].
  destruct obj; auto.
  destruct (probe_fields L (jsonld_vin_fields cfg) items) eqn:E; auto.
  intros [= <-]. eapply probe_fields_sound, E.
Qed.

Lemma probe_block_sound (script : option str) (v : str) :
  probe_block L cfg script = Return (Some v) -> validated_vin L v.
Proof.
  unfold probe_block.
  destruct script as [raw|]; [|discriminate].
  destruct (truthy raw); simpl; [|discriminate].
  destruct (json_loads L raw) as [data|[]]; try discriminate.
  destruct (candidates_of data) as [c|]; [|discriminate].
  destruct (iterate c) as [objs|]; simpl; [|discriminate].
  intros [= H]. eapply probe_candidates_sound, H.
Qed.

Lemma probe_blocks_sound (scripts : list (option str)) (v : str) :
  probe_blocks L cfg scripts = Return (Some v) -> validated_vin L v.
Proof.
  induction scripts as [|b rest IH]; simpl; [discriminate|].
  destruct (probe_block L cfg b) as [[w|]|] eqn:E; simpl; try discriminate; auto.
  intros [= <-]. eapply probe_block_sound, E.
Qed.

Lemma extract_vin_from_text_sound (doc : soup) (v : str) :
  _extract_vin_from_text L cfg doc = Return (Some v) -> validated_vin L v.
Proof.
  unfold _extract_vin_from_text.
  destruct (re_search L (vin_text_pattern cfg) (scope_text doc)) as [g|];
    [|discriminate].
  destruct g; simpl; try discriminate.
  destruct (_is_valid_vin (strip s)) eqn:E; [|discriminate].
  intros [= <-]. apply validated_strip, E.
Qed.

Lemma vin_of_page_sound (doc : soup) (v : str) :
  vin_of_page L cfg doc = Return (Some v) -> validated_vin L v.
Proof.
  unfold vin_of_page, _extract_vin_from_jsonld.
  destruct (probe_blocks L cfg (ld_json_scripts doc)) as [[w|]|] eqn:E; simpl;
    try discriminate.
  - intros [= <-]. eapply probe_blocks_sound, E.
  - apply extract_vin_from_text_sound.
Qed.

Lemma scrape_page_vin_sound session (url : str) events (r : ScrapeResult) (v : str) :
  scrape_page L cfg session url = (events, Return r) ->
  vin_number r = Some v -> validated_vin L v.
Proof.
  unfold scrape_page.
  destruct (_fetch_html L cfg session url) as [evs [html|e]].
  - unfold parse_and_extract.
    destruct (BeautifulSoup L html) as [doc|]; simpl.
    + destruct (vin_of_page L cfg doc) as [vin|] eqn:E; simpl.
      * destruct (_extract_stock_number L cfg doc); simpl;
          intros [= _ <-]; simpl; try discriminate.
        intros ->. eapply vin_of_page_sound, E.
      * intros [= _ <-]; discriminate.
    + intros [= _ <-]; discriminate.
  - destruct e; simpl; intros [= _ <-]; discriminate.
Qed.

(** Blocks are probed in document order and the first that gives a VIN
    ends the search. *)
Lemma probe_blocks_first (before after : list (option str)) (b : option str) (v : str) :
  Forall (silent_block L cfg) before ->
  probe_block L cfg b = Return (Some v) ->
  probe_blocks L cfg (before ++ b :: after) = Return (Some v).
Proof.
  intros Hbefore Hb. induction Hbefore as [|a before Ha _ IH]; simpl.
  - rewrite Hb; reflexivity.
  - unfold silent_block in Ha. rewrite Ha; simpl. exact IH.
Qed.

(** Candidate objects are probed in order. *)
Lemma probe_candidates_first (before after : list json) (obj : list (str * json)) (v : str) :
  Forall (fun c => probe_candidates L cfg [c] = None) before ->
  probe_fields L (jsonld_vin_fields cfg) obj = Some v ->
  probe_candidates L cfg (before ++ JDict obj :: after) = Some v.
Proof.
  intros Hbefore Hobj. induction Hbefore as [|a before Ha _ IH]; simpl.
  - rewrite Hobj; reflexivity.
  - simpl in Ha. destruct a; auto.
    destruct (probe_fields L (jsonld_vin_fields cfg) items); [discriminate|auto].
Qed.

(** Field names are probed in the configured order. *)
Lemma probe_fields_first (before after : list str) (f : str) (obj : list (str * json)) (v : str) :
  Forall (fun g => probe_fields L [g] obj = None) before ->
  probe_fields L [f] obj = Some v ->
  probe_fields L (before ++ f :: after) obj = Some v.
Proof.
  intros Hbefore Hf. induction Hbefore as [|g before Hg _ IH]; simpl in *.
  - destruct (dict_get f obj) as [[| | | |raw| |]|]; try discriminate.
    destruct (truthy raw); [|discriminate].
    destruct (_is_valid_vin (strip raw)); [exact Hf|discriminate].
  - destruct (dict_get g obj) as [[| | | |raw| |]|]; auto.
    destruct (truthy raw); auto.
    destruct (_is_valid_vin (strip raw)); [discriminate|auto].
Qed.

(** The text path is not consulted once the structured data gave a VIN. *)
Lemma vin_of_page_prefers_jsonld (doc : soup) (v : str) :
  _extract_vin_from_jsonld L cfg doc = Return (Some v) ->
  vin_of_page L cfg doc = Return (Some v).
Proof. unfold vin_of_page. intros ->. reflexivity. Qed.

(** The text path is consulted when the structured data gave nothing. *)
Lemma vin_of_page_falls_back (doc : soup) :
  _extract_vin_from_jsonld L cfg doc = Return None ->
  vin_of_page L cfg doc = _extract_vin_from_text L cfg doc.
Proof. unfold vin_of_page. intros ->. reflexivity. Qed.

End Extraction.

Lemma str_eqb_eq (a b : str) : str_eqb a b = true <-> a = b.
Proof.
  unfold str_eqb. destruct (list_eq_dec N.eq_dec a b); split; congruence.
Qed.

Section SameStructuredData.

(** Two runs that agree on what the structured-data path reads: the
    blocks, their decoding, the field names and the upper-case table.
    Nothing is assumed of the page text, of the text patterns or of the
    regular-expression engine. *)
Variables L L' : Lib.
Variables cfg cfg' : Config.
Hypothesis same_loads : forall raw, json_loads L' raw = json_loads L raw.
Hypothesis same_upper : forall c, unicode_upper L' c = unicode_upper L c.
Hypothesis same_fields : jsonld_vin_fields cfg' = jsonld_vin_fields cfg.

Lemma upper_same (s : str) :
  upper (unicode_upper L') s = upper (unicode_upper L) s.
Proof.
  unfold upper. induction s as [|c s IH]; simpl; [reflexivity|].
  rewrite IH. unfold upper_char. rewrite same_upper. reflexivity.
Qed.

Lemma probe_fields_same (fields : list str) (obj : list (str * json)) :
  probe_fields L' fields obj = probe_fields L fields obj.
Proof.
  induction fields as [|f fields IH]; cbn [probe_fields]; [reflexivity|].
  rewrite IH. destruct (dict_get f obj) as [[| | | |raw| |]|]; try reflexivity.
  cbv zeta. rewrite upper_same. reflexivity.
Qed.

Lemma probe_candidates_same (candidates : list json) :
  probe_candidates L' cfg' candidates = probe_candidates L cfg candidates.
Proof.
  induction candidates as [|c rest IH]; cbn [probe_candidates]; [reflexivity|].
  rewrite IH, same_fields. destruct c; try reflexivity.
  rewrite probe_fields_same. reflexivity.
Qed.

Lemma probe_block_same (script : option str) :
  probe_block L' cfg' script = probe_block L cfg script.
Proof.
  unfold probe_block. destruct script as [raw|]; [|reflexivity].
  rewrite same_loads.
  destruct (truthy raw); simpl; [|reflexivity].
  destruct (json_loads L raw) as [data|e]; [|reflexivity].
  destruct (candidates_of data) as [c|]; [|reflexivity].
  destruct (iterate c) as [objs|]; simpl; [|reflexivity].
  rewrite probe_candidates_same. reflexivity.
Qed.

Lemma extract_vin_from_jsonld_same (doc doc' : soup) :
  ld_json_scripts doc' = ld_json_scripts doc ->
  _extract_vin_from_jsonld L' cfg' doc' = _extract_vin_from_jsonld L cfg doc.
Proof.
  unfold _extract_vin_from_jsonld. intros ->.
  induction (ld_json_scripts doc) as [|b rest IH]; simpl; [reflexivity|].
  rewrite probe_block_same, IH. reflexivity.
Qed.

End SameStructuredData.

Section Scenario.

Variable L : Lib.
Variable cfg : Config.

Lemma probe_fields_scenario (fields : list str) :
  In (lit "vehicleIdentificationNumber") fields ->
  probe_fields L fields
    [(lit "vehicleIdentificationNumber", JStr (lit "1ftfw1et1ekd12345"))]
  = Some (lit "1FTFW1ET1EKD12345").
Proof.
  induction fields as [|f fields IH]; simpl; [contradiction|].
  destruct (str_eqb (lit "vehicleIdentificationNumber") f) eqn:E.
  - intros _. reflexivity.
  - intros [->|H]; [|exact (IH H)].
    assert (str_eqb (lit "vehicleIdentificationNumber")
              (lit "vehicleIdentificationNumber") = true) as E'
        by (apply str_eqb_eq; reflexivity).
    rewrite E' in E; discriminate.
Qed.

Lemma probe_block_scenario :
  json_loads L vin_block
  = Return (JDict [(lit "vehicleIdentificationNumber",
                    JStr (lit "1ftfw1et1ekd12345"))]) ->
  In (lit "vehicleIdentificationNumber") (jsonld_vin_fields cfg) ->
  probe_block L cfg (Some vin_block) = Return (Some (lit "1FTFW1ET1EKD12345")).
Proof.
  intros Hloads Hin. unfold probe_block.
  change (truthy vin_block) with true. cbn [negb].
  rewrite Hloads.
  set (obj := [(lit "vehicleIdentificationNumber", JStr (lit "1ftfw1et1ekd12345"))]).
  change (candidates_of (JDict obj)) with (Some (JList [JDict obj])).
  cbn [iterate bind probe_candidates].
  unfold obj. rewrite (probe_fields_scenario _ Hin). reflexivity.
Qed.

End Scenario.

(** C1.  Whatever page is scraped, a VIN that is reported is the
    upper-cased form of a trimmed value the 17-character check accepts.
    The structured data is read first: its blocks in document order, the
    candidate objects of a block in order, the configured field names in
    order, and the first accepted value ends the search.  The visible text
    is consulted exactly when the structured data gave nothing: a VIN found
    in the structured data is the result whatever the text, the text
    pattern and the regular-expression engine are.  In particular a block
    [{"vehicleIdentificationNumber": "1ftfw1et1ekd12345"}], reached after
    blocks that give nothing, yields [1FTFW1ET1EKD12345]. *)
Theorem vin_extraction_validated_jsonld_first (L : Lib) (cfg : Config) :
  (forall session url events r v,
      scrape_page L cfg session url = (events, Return r) ->
      vin_number r = Some v -> validated_vin L v)
  /\ (forall doc v, vin_of_page L cfg doc = Return (Some v) -> validated_vin L v)
  /\ (forall before b after v,
         Forall (silent_block L cfg) before ->
         probe_block L cfg b = Return (Some v) ->
         probe_blocks L cfg (before ++ b :: after) = Return (Some v))
  /\ (forall before obj after v,
         Forall (fun c => probe_candidates L cfg [c] = None) before ->
         probe_fields L (jsonld_vin_fields cfg) obj = Some v ->
         probe_candidates L cfg (before ++ JDict obj :: after) = Some v)
  /\ (forall before f after obj v,
         Forall (fun g => probe_fields L [g] obj = None) before ->
         probe_fields L [f] obj = Some v ->
         probe_fields L (before ++ f :: after) obj = Some v)
  /\ (forall doc v,
         _extract_vin_from_jsonld L cfg doc = Return (Some v) ->
         forall L' cfg' doc',
           (forall raw, json_loads L' raw = json_loads L raw) ->
           (forall c, unicode_upper L' c = unicode_upper L c) ->
           jsonld_vin_fields cfg' = jsonld_vin_fields cfg ->
           ld_json_scripts doc' = ld_json_scripts doc ->
           vin_of_page L' cfg' doc' = Return (Some v))
  /\ (forall doc,
         _extract_vin_from_jsonld L cfg doc = Return None ->
         vin_of_page L cfg doc = _extract_vin_from_text L cfg doc)
  /\ (forall doc before after,
         json_loads L vin_block
         = Return (JDict [(lit "vehicleIdentificationNumber",
                           JStr (lit "1ftfw1et1ekd12345"))]) ->
         In (lit "vehicleIdentificationNumber") (jsonld_vin_fields cfg) ->
         ld_json_scripts doc = before ++ Some vin_block :: after ->
         Forall (silent_block L cfg) before ->
         vin_of_page L cfg doc = Return (Some (lit "1FTFW1ET1EKD12345"))).
Proof.
  repeat split.
  - apply scrape_page_vin_sound.
  - apply vin_of_page_sound.
  - intros; apply probe_blocks_first; assumption.
  - intros; apply probe_candidates_first; assumption.
  - intros; apply probe_fields_first; assumption.
  - intros doc v Hv L' cfg' doc' Hl Hu Hf Hs.
    apply vin_of_page_prefers_jsonld.
    rewrite (extract_vin_from_jsonld_same L L' cfg cfg' Hl Hu Hf doc doc' Hs).
    exact Hv.
  - apply vin_of_page_falls_back.
  - intros doc before after Hl Hin Hs Hbefore.
    apply vin_of_page_prefers_jsonld. unfold _extract_vin_from_jsonld.
    rewrite Hs. apply probe_blocks_first; [exact Hbefore|].
    apply probe_block_scenario; assumption.
Qed.

(** The scenario on a page whose only block is the one above, with a text
    pattern that would raise if it were consulted. *)
Lemma vin_extraction_validated_jsonld_first_witness :
  vin_of_page (example_lib plain_page) (example_config 3) (page_with [vin_block])
  = Return (Some (lit "1FTFW1ET1EKD12345"))
  /\ validated_vin (example_lib plain_page) (lit "1FTFW1ET1EKD12345").
Proof.
  pose proof (vin_extraction_validated_jsonld_first
                (example_lib plain_page) (example_config 3))
    as (_ & Hsound & _ & _ & _ & _ & _ & Hscenario).
  assert (H : vin_of_page (example_lib plain_page) (example_config 3)
                (page_with [vin_block])
              = Return (Some (lit "1FTFW1ET1EKD12345"))).
  { apply (Hscenario (page_with [vin_block]) [] []).
    - reflexivity.
    - simpl; auto.
    - reflexivity.
    - constructor. }
  split; [exact H|]. exact (Hsound _ _ H).
Defined.

(** * The [@graph] key *)

(** C9.  When a block decodes to an object with the key [@graph], the
    candidates are what iterating the value of that key gives and nothing
    else: the result of the block is a function of that value alone, so a
    VIN field of the object itself is never read.  With an empty list as
    the graph the block contributes nothing. *)
Theorem graph_key_hides_top_level_fields (L : Lib) (cfg : Config)
  (raw : str) (d : list (str * json)) (graph : json) :
  truthy raw = true ->
  json_loads L raw = Return (JDict d) ->
  dict_get (lit "@graph") d = Some graph ->
  probe_block L cfg (Some raw)
  = bind (iterate graph) (fun objs => Return (probe_candidates L cfg objs))
  /\ (forall raw' d',
         truthy raw' = true ->
         json_loads L raw' = Return (JDict d') ->
         dict_get (lit "@graph") d' = Some graph ->
         probe_block L cfg (Some raw') = probe_block L cfg (Some raw))
  /\ (graph = JList [] ->
      probe_block L cfg (Some raw) = Return None
      /\ forall doc,
          ld_json_scripts doc = [Some raw] ->
          _extract_vin_from_jsonld L cfg doc = Return None).
Proof.
  intros Htruthy Hloads Hgraph.
  assert (Hblock : forall r e,
             truthy r = true -> json_loads L r = Return (JDict e) ->
             dict_get (lit "@graph") e = Some graph ->
             probe_block L cfg (Some r)
             = bind (iterate graph)
                 (fun objs => Return (probe_candidates L cfg objs))).
  { intros r e Hr He Hg. unfold probe_block, candidates_of.
    rewrite Hr, He, Hg. reflexivity. }
  split; [|split].
  - apply (Hblock raw d); assumption.
  - intros raw' d' Hr Hl Hg.
    rewrite (Hblock raw d), (Hblock raw' d'); auto.
  - intros ->. rewrite (Hblock raw d) by assumption. simpl.
    split; [reflexivity|].
    intros doc Hdoc. unfold _extract_vin_from_jsonld. rewrite Hdoc.
    cbn [probe_blocks]. rewrite (Hblock raw d) by assumption. reflexivity.
Qed.

(** The object [{"@graph": [], "vin": "1FTFW1ET1EKD12345"}]: its own
    [vin] field holds a valid VIN, and the block yields none. *)
Lemma graph_key_hides_top_level_fields_witness :
  probe_fields (example_lib plain_page)
    (jsonld_vin_fields (example_config 3))
    [(lit "@graph", JList []); (lit "vin", JStr (lit "1FTFW1ET1EKD12345"))]
  = Some (lit "1FTFW1ET1EKD12345")
  /\ _extract_vin_from_jsonld (example_lib plain_page) (example_config 3)
       (page_with [graph_block])
     = Return None.
Proof.
  split; [reflexivity|].
  pose proof (graph_key_hides_top_level_fields
                (example_lib plain_page) (example_config 3)
                graph_block
                [(lit "@graph", JList []);
                 (lit "vin", JStr (lit "1FTFW1ET1EKD12345"))]
                (JList []) eq_refl eq_refl eq_refl)
    as (_ & _ & H).
  destruct (H eq_refl) as [_ Hdoc].
  apply Hdoc. reflexivity.
Defined.

(** * Retries and backoff *)

Section Fetch.

Variable L : Lib.
Variable cfg : Config.
Variable session_get : str -> nat -> get_outcome.
Variables url fetch_url : str.

Local Open Scope Z_scope.

Let N := max_retries cfg.

(** What the loop emits for the attempts of a list when all of them fail. *)
Let emitted (attempts : list Z) : list event :=
  flat_map (fun i => Get fetch_url :: (if i <? N - 1 then [Sleep (2 ^ i)] else []))
    attempts.

Lemma try_once_retry (k : nat) (e : exn) :
  retryable_failure fetch_url (session_get fetch_url k) = Some e ->
  try_once session_get url fetch_url (Z.of_nat k) = Retry e.
Proof.
  unfold try_once, retryable_failure. rewrite Nat2Z.id.
  destruct (session_get fetch_url k) as [r|msg].
  - destruct (status_code r =? 404); [discriminate|].
    intros ->; reflexivity.
  - intros [= <-]; reflexivity.
Qed.

Lemma try_once_not_found (k : nat) :
  is_not_found (session_get fetch_url k) = true ->
  try_once session_get url fetch_url (Z.of_nat k)
  = Leave (Raise (PageNotFoundError (lit "404 Not Found: " ++ url))).
Proof.
  unfold try_once, is_not_found. rewrite Nat2Z.id.
  destruct (session_get fetch_url k) as [r|msg]; [|discriminate].
  intros ->; reflexivity.
Qed.

Lemma retryable_is_RequestException (o : get_outcome) (e : exn) :
  retryable_failure fetch_url o = Some e -> is_RequestException e = true.
Proof.
  unfold retryable_failure, raise_for_status. destruct o as [r|msg].
  - destruct (status_code r =? 404); [discriminate|].
    destruct ((400 <=? status_code r) && (status_code r <? 500));
      [intros [= <-]; reflexivity|].
    destruct ((500 <=? status_code r) && (status_code r <? 600));
      [intros [= <-]; reflexivity|discriminate].
  - intros [= <-]; reflexivity.
Qed.

(** The loop over the attempts [a .. a+n-1], all of which fail. *)
Lemma fetch_loop_all_fail (n a : nat) (last_exc : option exn) :
  (forall k, (a <= k < a + n)%nat ->
             retryable_failure fetch_url (session_get fetch_url k) <> None) ->
  fetch_loop cfg session_get url fetch_url (map Z.of_nat (seq a n)) last_exc
  = (emitted (map Z.of_nat (seq a n)),
     Raise (RequestException (all_failed_message cfg fetch_url)
              (match n with
               | O => last_exc
               | S m => retryable_failure fetch_url (session_get fetch_url (a + m))
               end))).
Proof.
  revert a last_exc. induction n as [|n IH]; intros a last_exc Hfail.
  - reflexivity.
  - cbn [seq map fetch_loop].
    destruct (retryable_failure fetch_url (session_get fetch_url a)) as [e|] eqn:E.
    2:{ exfalso. apply (Hfail a); [lia|exact E]. }
    rewrite (try_once_retry _ _ E).
    rewrite (IH (S a) (Some e)) by (intros k Hk; apply Hfail; lia).
    unfold emitted; cbn [flat_map]. fold N. f_equal. f_equal. f_equal.
    destruct n as [|m]; [rewrite Nat.add_0_r; exact (eq_sym E)|].
    f_equal. f_equal. lia.
Qed.

(** The loop over [a .. a+n-1] when the attempts before [a+j] fail and
    attempt [a+j] is answered 404. *)
Lemma fetch_loop_not_found (n a j : nat) (last_exc : option exn) :
  (j < n)%nat ->
  (forall k, (a <= k < a + j)%nat ->
             retryable_failure fetch_url (session_get fetch_url k) <> None) ->
  is_not_found (session_get fetch_url (a + j)) = true ->
  fetch_loop cfg session_get url fetch_url (map Z.of_nat (seq a n)) last_exc
  = (emitted (map Z.of_nat (seq a j)) ++ [Get fetch_url],
     Raise (PageNotFoundError (lit "404 Not Found: " ++ url))).
Proof.
  revert a j last_exc. induction n as [|n IH]; intros a j last_exc Hj Hfail H404;
    [lia|].
  cbn [seq map fetch_loop]. destruct j as [|j].
  - rewrite Nat.add_0_r in H404. rewrite (try_once_not_found _ H404).
    reflexivity.
  - destruct (retryable_failure fetch_url (session_get fetch_url a)) as [e|] eqn:E.
    2:{ exfalso. apply (Hfail a); [lia|exact E]. }
    rewrite (try_once_retry _ _ E).
    rewrite (IH (S a) j (Some e)); try lia.
    + unfold emitted; cbn [seq map flat_map]. fold N.
      rewrite <- !app_comm_cons, <- app_assoc. reflexivity.
    + intros k Hk; apply Hfail; lia.
    + replace (S a + j)%nat with (a + S j)%nat by lia. exact H404.
Qed.

(** Before the last attempt every failure is followed by its wait. *)
Lemma emitted_backoff (m : nat) :
  Z.of_nat m <= N - 1 ->
  emitted (map Z.of_nat (seq 0 m)) = backoff_events fetch_url (Z.of_nat m).
Proof.
  intros Hm. unfold emitted, backoff_events, range. rewrite Nat2Z.id.
  rewrite !flat_map_concat_map. f_equal. apply map_ext_in. intros i Hi.
  apply in_map_iff in Hi as (k & <- & Hk). apply in_seq in Hk.
  destruct (Z.ltb_spec (Z.of_nat k) (N - 1)); [reflexivity|lia].
Qed.

Lemma emitted_all :
  1 <= N ->
  emitted (range N) = backoff_events fetch_url (N - 1) ++ [Get fetch_url].
Proof.
  intros HN. unfold range.
  replace (Z.to_nat N) with (Z.to_nat (N - 1) + 1)%nat by lia.
  rewrite seq_app, map_app. unfold emitted at 1. rewrite flat_map_app.
  fold (emitted (map Z.of_nat (seq 0 (Z.to_nat (N - 1))))).
  rewrite emitted_backoff by lia. rewrite Z2Nat.id by lia.
  f_equal. cbn [seq map flat_map]. rewrite Nat.add_0_l, Z2Nat.id by lia.
  rewrite Z.ltb_irrefl. reflexivity.
Qed.

End Fetch.

Lemma attempts_made_backoff (fetch_url : str) (m : nat) :
  attempts_made (backoff_events fetch_url (Z.of_nat m) ++ [Get fetch_url]) = S m.
Proof.
  unfold attempts_made, backoff_events, range. rewrite Nat2Z.id.
  rewrite filter_app, length_app. cbn [filter length].
  enough (H : forall a,
             length (filter (fun e => match e with Get _ => true | Sleep _ => false end)
                       (flat_map (fun i => [Get fetch_url; Sleep (2 ^ i)%Z])
                          (map Z.of_nat (seq a m)))) = m)
    by (rewrite H; lia).
  induction m as [|m IH]; intros a; [reflexivity|].
  cbn [seq map flat_map app filter length]. rewrite (IH (S a)). reflexivity.
Qed.

Lemma waits_backoff (fetch_url : str) (m : nat) :
  waits (backoff_events fetch_url (Z.of_nat m) ++ [Get fetch_url])
  = map (Z.pow 2) (range (Z.of_nat m)).
Proof.
  unfold waits, backoff_events, range. rewrite Nat2Z.id.
  rewrite flat_map_app. cbn [flat_map]. rewrite !app_nil_r.
  enough (H : forall a,
             flat_map (fun e => match e with Get _ => [] | Sleep s => [s] end)
               (flat_map (fun i => [Get fetch_url; Sleep (2 ^ i)%Z])
                  (map Z.of_nat (seq a m)))
             = map (Z.pow 2) (map Z.of_nat (seq a m)))
    by apply H.
  induction m as [|m IH]; intros a; [reflexivity|].
  cbn [seq map flat_map app]. rewrite (IH (S a)). reflexivity.
Qed.

(** C3.  With a retry count [N >= 1] and a URL the tracking step accepts:
    when every attempt fails in a retryable way, [_fetch_html] makes
    exactly [N] requests, waits [2^i] seconds after failed attempt [i] for
    [i = 0 .. N-2] and not after the last, then raises a
    [RequestException] whose cause is the failure of the last attempt; an
    answer 404 to attempt [k] raises [PageNotFoundError] at once, with no
    request and no wait after it, so a 404 to the first request costs one
    request and no wait. *)
Theorem fetch_html_backoff_then_raise (L : Lib) (cfg : Config)
  (session_get : str -> nat -> get_outcome) (url fetch_url : str) :
  (1 <= max_retries cfg)%Z ->
  _append_utm L cfg url = Return fetch_url ->
  ((forall k, (k < Z.to_nat (max_retries cfg))%nat ->
              retryable_failure fetch_url (session_get fetch_url k) <> None) ->
   exists last events,
     retryable_failure fetch_url
       (session_get fetch_url (Z.to_nat (max_retries cfg - 1))) = Some last
     /\ is_RequestException last = true
     /\ _fetch_html L cfg session_get url
        = (events,
           Raise (RequestException (all_failed_message cfg fetch_url) (Some last)))
     /\ events
        = backoff_events fetch_url (max_retries cfg - 1) ++ [Get fetch_url]
     /\ attempts_made events = Z.to_nat (max_retries cfg)
     /\ waits events = map (Z.pow 2) (range (max_retries cfg - 1)))
  /\ (forall k,
         (k < Z.to_nat (max_retries cfg))%nat ->
         (forall j, (j < k)%nat ->
                    retryable_failure fetch_url (session_get fetch_url j) <> None) ->
         is_not_found (session_get fetch_url k) = true ->
         _fetch_html L cfg session_get url
         = (backoff_events fetch_url (Z.of_nat k) ++ [Get fetch_url],
            Raise (PageNotFoundError (lit "404 Not Found: " ++ url))))
  /\ (is_not_found (session_get fetch_url 0%nat) = true ->
      _fetch_html L cfg session_get url
      = ([Get fetch_url],
         Raise (PageNotFoundError (lit "404 Not Found: " ++ url)))).
Proof.
  intros HN Hutm.
  assert (H404 : forall k,
             (k < Z.to_nat (max_retries cfg))%nat ->
             (forall j, (j < k)%nat ->
                retryable_failure fetch_url (session_get fetch_url j) <> None) ->
             is_not_found (session_get fetch_url k) = true ->
             _fetch_html L cfg session_get url
             = (backoff_events fetch_url (Z.of_nat k) ++ [Get fetch_url],
                Raise (PageNotFoundError (lit "404 Not Found: " ++ url)))).
  { intros k Hk Hfail Hnf. unfold _fetch_html, range. rewrite Hutm.
    rewrite (fetch_loop_not_found cfg session_get url fetch_url
               (Z.to_nat (max_retries cfg)) 0%nat k None Hk).
    - rewrite (emitted_backoff cfg fetch_url k) by lia. reflexivity.
    - intros j Hj; apply Hfail; lia.
    - exact Hnf. }
  split; [|split].
  - intros Hfail.
    destruct (retryable_failure fetch_url
                (session_get fetch_url (Z.to_nat (max_retries cfg - 1))))
      as [last|] eqn:Elast.
    2:{ exfalso. apply (Hfail (Z.to_nat (max_retries cfg - 1))); [lia|exact Elast]. }
    exists last, (backoff_events fetch_url (max_retries cfg - 1) ++ [Get fetch_url]).
    split; [reflexivity|].
    split; [exact (retryable_is_RequestException _ _ _ Elast)|].
    split; [|split; [reflexivity|split]].
    + unfold _fetch_html, range. rewrite Hutm.
      rewrite (fetch_loop_all_fail cfg session_get url fetch_url
                 (Z.to_nat (max_retries cfg)) 0%nat None)
        by (intros k Hk; apply Hfail; lia).
      fold (range (max_retries cfg)). rewrite (emitted_all cfg fetch_url HN).
      destruct (Z.to_nat (max_retries cfg)) as [|m] eqn:Em; [lia|].
      replace (0 + m)%nat with (Z.to_nat (max_retries cfg - 1)) by lia.
      rewrite Elast. reflexivity.
    + replace (max_retries cfg - 1)%Z
        with (Z.of_nat (Z.to_nat (max_retries cfg - 1))) by lia.
      rewrite attempts_made_backoff. lia.
    + replace (max_retries cfg - 1)%Z
        with (Z.of_nat (Z.to_nat (max_retries cfg - 1))) at 1 by lia.
      rewrite waits_backoff. rewrite Z2Nat.id by lia. reflexivity.
  - exact H404.
  - intros Hnf. apply (H404 0%nat); [lia| |exact Hnf].
    intros j Hj; lia.
Qed.

(** Three attempts against a server that refuses every connection:
    request, wait 1, request, wait 2, request.  Against a server that
    answers 404: one request. *)
Lemma fetch_html_backoff_then_raise_witness :
  exists fetch_url,
    _fetch_html (example_lib plain_page) (example_config 3) refusing good_url
    = ([Get fetch_url; Sleep 1; Get fetch_url; Sleep 2; Get fetch_url],
       Raise (RequestException
                (all_failed_message (example_config 3) fetch_url)
                (Some (ConnectionError (lit "refused")))))
    /\ _fetch_html (example_lib plain_page) (example_config 3) missing good_url
       = ([Get fetch_url],
          Raise (PageNotFoundError (lit "404 Not Found: " ++ good_url))).
Proof.
  exists (good_url ++ lit "?utm_source=ga4"). split.
  - destruct (fetch_html_backoff_then_raise
                (example_lib plain_page) (example_config 3) refusing
                good_url (good_url ++ lit "?utm_source=ga4"))
      as [Hfail _].
    + simpl. lia.
    + reflexivity.
    + destruct Hfail as (last & events & Hlast & _ & Hrun & Hevents & _).
      * intros k _. discriminate.
      * injection Hlast as <-. rewrite Hrun, Hevents. reflexivity.
  - destruct (fetch_html_backoff_then_raise
                (example_lib plain_page) (example_config 3) missing
                good_url (good_url ++ lit "?utm_source=ga4"))
      as (_ & _ & H404).
    + simpl. lia.
    + reflexivity.
    + apply H404. reflexivity.
Defined.

(** * The outcome of a scrape *)

Section Outcome.

Variable L : Lib.
Variable cfg : Config.
Variable session_get : str -> nat -> get_outcome.
Variable url : str.


Lemma all_failed_message_nonempty (fetch_url : str) :
  all_failed_message cfg fetch_url <> [].
Proof. unfold all_failed_message. discriminate. Qed.


(** An error of [urlparse] in the tracking step is none of the two kinds
    the first [try] of [scrape_page] handles: it leaves [scrape_page]. *)
Lemma scrape_page_leaks_ValueError (msg : str) :
  utm_params cfg <> [] ->
  urlparse L url = Raise (ValueError msg) ->
  _fetch_html L cfg session_get url = ([], Raise (ValueError msg))
  /\ scrape_page L cfg session_get url = ([], Raise (ValueError msg)).
Proof.
  intros Hutm Hparse.
  assert (H : _fetch_html L cfg session_get url = ([], Raise (ValueError msg))).
  { unfold _fetch_html, _append_utm.
    destruct (utm_params cfg); [congruence|].
    rewrite Hparse. reflexivity. }
  split; [exact H|]. unfold scrape_page. rewrite H. reflexivity.
Qed.

End Outcome.



(** C10 (code defect, the same as for C4).  With a retry count of 0 or
    less and a URL the tracking step accepts, [_fetch_html] makes no
    request, raises the final [RequestException] with no cause, and
    [scrape_page] returns status [failed] with that message.  With
    tracking parameters configured and a URL [urlparse] rejects,
    [_fetch_html] raises [ValueError] instead and [scrape_page] returns no
    result. *)
Theorem no_retries_no_request (L : Lib) (cfg : Config)
  (session_get : str -> nat -> get_outcome) (url : str) :
  (max_retries cfg <= 0)%Z ->
  (forall fetch_url,
      _append_utm L cfg url = Return fetch_url ->
      _fetch_html L cfg session_get url
      = ([], Raise (RequestException (all_failed_message cfg fetch_url) None))
      /\ scrape_page L cfg session_get url
         = ([], Return (with_failure (new_result L url) failed
                          (all_failed_message cfg fetch_url)))
      /\ all_failed_message cfg fetch_url <> [])
  /\ (forall msg,
         utm_params cfg <> [] ->
         urlparse L url = Raise (ValueError msg) ->
         _fetch_html L cfg session_get url = ([], Raise (ValueError msg))
         /\ scrape_page L cfg session_get url = ([], Raise (ValueError msg))).
Proof.
  intros HN. split.
  - intros fetch_url Hutm.
    assert (H : _fetch_html L cfg session_get url
                = ([], Raise (RequestException
                                (all_failed_message cfg fetch_url) None))).
    { unfold _fetch_html, range. rewrite Hutm.
      replace (Z.to_nat (max_retries cfg)) with 0%nat by lia. reflexivity. }
    split; [exact H|]. split; [|apply all_failed_message_nonempty].
    unfold scrape_page. rewrite H. reflexivity.
  - intros msg. apply scrape_page_leaks_ValueError.
Qed.

(** No retries: nothing is requested from a server that would serve the
    page, and the result is [failed]; with the unmatched bracket there is
    no result. *)
Lemma no_retries_no_request_witness :
  (exists r,
      scrape_page (example_lib plain_page) (example_config 0) serving good_url
      = ([], Return r)
      /\ scrape_status r = failed)
  /\ scrape_page (example_lib plain_page) (example_config 0) serving bad_url
     = ([], Raise (ValueError (lit "Invalid IPv6 URL"))).
Proof.
  split.
  - destruct (no_retries_no_request
                (example_lib plain_page) (example_config 0) serving good_url)
      as [Hgood _]; [simpl; lia|].
    destruct (Hgood (good_url ++ lit "?utm_source=ga4") eq_refl) as (_ & Hrun & _).
    eexists. split; [exact Hrun|reflexivity].
  - destruct (no_retries_no_request
                (example_lib plain_page) (example_config 0) serving bad_url)
      as [_ Hbad]; [simpl; lia|].
    destruct (Hbad (lit "Invalid IPv6 URL")) as [_ Hrun].
    + discriminate.
    + reflexivity.
    + exact Hrun.
Defined.

(** * The report loop: what is retained *)

Section Retained.

Variable G : GaLib.
Variable self : GA4Client.
Variable server : nat -> Z -> result Report.

Local Open Scope Z_scope.

Let ok := retained_ok G self server.

Lemma process_row_ok (n : nat) (off : Z) (response : Report) (row : Row)
  (st : LoopState) :
  server n off = Return response ->
  In row (rows response) ->
  Forall ok (underexposed st) ->
  Forall ok (underexposed (process_row G self st row)).
Proof.
  intros Hserver Hin Hst. unfold process_row.
  destruct (decode_row G row) as [[path views]|] eqn:Edec; [|exact Hst].
  destruct (fails_inclusion G self path) eqn:Einc; [exact Hst|].
  destruct (hits_exclusion G self path) eqn:Eexc; [exact Hst|].
  cbn [orb]. destruct (Z.ltb_spec views (_threshold self)); [|exact Hst].
  cbn [underexposed]. apply Forall_app. split; [exact Hst|].
  constructor; [|constructor].
  repeat split; cbn [page_path page_views]; try assumption.
  exists n, off, response, row. auto.
Qed.

Lemma fold_rows_ok (n : nat) (off : Z) (response : Report) (some : list Row)
  (st : LoopState) :
  server n off = Return response ->
  incl some (rows response) ->
  Forall ok (underexposed st) ->
  Forall ok (underexposed (fold_left (process_row G self) some st)).
Proof.
  intros Hserver. revert st.
  induction some as [|row some IH]; intros st Hincl Hst; [exact Hst|].
  cbn [fold_left]. apply IH.
  - intros r Hr. apply Hincl. right; exact Hr.
  - apply (process_row_ok n off response); auto.
    apply Hincl. left; reflexivity.
Qed.

Lemma pagination_ok (fuel n k : nat) (st st' : LoopState) :
  Forall ok (underexposed st) ->
  pagination G self server fuel n st = Broke k st' ->
  Forall ok (underexposed st').
Proof.
  revert n st. induction fuel as [|fuel IH]; intros n st Hst; [discriminate|].
  cbn [pagination].
  destruct (server n (offset st)) as [response|e] eqn:Eserver; [|discriminate].
  destruct (Z.of_nat (length (rows response)) =? 0).
  - intros [= _ <-]. exact Hst.
  - pose proof (fold_rows_ok n (offset st) response (rows response) st Eserver
                  (incl_refl _) Hst) as Hfold.
    destruct (offset _ >=? row_count response).
    + intros [= _ <-]. exact Hfold.
    + apply IH. exact Hfold.
Qed.

End Retained.

(** * Ranking and truncation *)

Lemma in_firstn {A : Type} (k : nat) (l : list A) (x : A) :
  In x (firstn k l) -> In x l.
Proof.
  intros H. rewrite <- (firstn_skipn k l). apply in_or_app. left; exact H.
Qed.

Section Ranking.

Variable G : GaLib.
Variable self : GA4Client.

Local Open Scope Z_scope.

Lemma insert_by_year_perm (p : Page) (l : list Page) :
  Permutation (insert_by_year G p l) (p :: l).
Proof.
  induction l as [|q l IH]; cbn [insert_by_year]; [reflexivity|].
  destruct (_slug_year G (page_path p) <? _slug_year G (page_path q));
    [|reflexivity].
  rewrite IH. apply perm_swap.
Qed.

Lemma sort_newest_first_perm (l : list Page) :
  Permutation (sort_newest_first G l) l.
Proof.
  induction l as [|p l IH]; cbn; [reflexivity|].
  unfold sort_newest_first in IH. rewrite insert_by_year_perm, IH. reflexivity.
Qed.






Lemma slice_to_firstn (l : list Page) (m : Z) :
  exists k, slice_to l m = firstn k l.
Proof. unfold slice_to. destruct (m <? 0); eexists; reflexivity. Qed.

(** The statements after the loop return a head of the ranked list. *)
Lemma rank_and_cap_head (retained : list Page) :
  exists k, rank_and_cap G self retained = firstn k (sort_newest_first G retained).
Proof.
  unfold rank_and_cap.
  destruct (Z.of_nat (length (sort_newest_first G retained)) >? _max_results self).
  - apply slice_to_firstn.
  - exists (length (sort_newest_first G retained)). symmetry. apply firstn_all.
Qed.

Lemma rank_and_cap_in (retained : list Page) (p : Page) :
  In p (rank_and_cap G self retained) -> In p retained.
Proof.
  destruct (rank_and_cap_head retained) as [k ->]. intros H.
  apply in_firstn in H.
  apply (Permutation_in _ (sort_newest_first_perm retained) H).
Qed.


Lemma sort_newest_first_length (l : list Page) :
  length (sort_newest_first G l) = length l.
Proof. apply Permutation_length, sort_newest_first_perm. Qed.


End Ranking.

(** * The returned list *)

(** The returned list is made of the pages the loop retained. *)
Lemma returned_from_retained (G : GaLib) (self : GA4Client)
  (server : nat -> Z -> result Report) (fuel : nat) (pages : list Page) :
  get_underexposed_pages G self server fuel = Some (Return pages) ->
  exists k st,
    pagination G self server fuel 0 initial_state = Broke k st
    /\ pages = rank_and_cap G self (underexposed st)
    /\ Forall (retained_ok G self server) (underexposed st).
Proof.
  unfold get_underexposed_pages.
  destruct (pagination G self server fuel 0 initial_state) as [k st|k e|] eqn:E;
    try discriminate.
  intros [= <-]. exists k, st. repeat split.
  apply (pagination_ok G self server fuel 0 k initial_state st); [constructor|exact E].
Qed.

Lemma returned_ok (G : GaLib) (self : GA4Client)
  (server : nat -> Z -> result Report) (fuel : nat) (pages : list Page) (p : Page) :
  get_underexposed_pages G self server fuel = Some (Return pages) ->
  In p pages -> retained_ok G self server p.
Proof.
  intros Hrun Hin.
  destruct (returned_from_retained G self server fuel pages Hrun)
    as (k & st & _ & -> & Hok).
  rewrite Forall_forall in Hok. apply Hok.
  apply (rank_and_cap_in G self _ _ Hin).
Qed.

(** C2 (as amended).  Every element of the returned list carries a count
    strictly below the threshold, and the count is what [int] made of the
    metric value of a row the server reported.  The code does not test the
    sign: the count is not negative when the server reports no negative
    value. *)
Theorem returned_views_below_threshold (G : GaLib) (self : GA4Client)
  (server : nat -> Z -> result Report) (fuel : nat) (pages : list Page) (p : Page) :
  get_underexposed_pages G self server fuel = Some (Return pages) ->
  In p pages ->
  (page_views p < _threshold self)%Z
  /\ reported G server p
  /\ ((forall n off response row path views,
          server n off = Return response ->
          In row (rows response) ->
          decode_row G row = Some (path, views) -> (0 <= views)%Z) ->
      (0 <= page_views p)%Z).
Proof.
  intros Hrun Hin.
  destruct (returned_ok G self server fuel pages p Hrun Hin)
    as (Hlt & _ & _ & Hrep).
  repeat split; try assumption.
  intros Hserver. destruct Hrep as (n & off & response & row & Hs & Hr & Hd).
  exact (Hserver n off response row _ _ Hs Hr Hd).
Qed.

Lemma returned_views_below_threshold_witness :
  get_underexposed_pages example_galib (example_client 10) two_pages 1
  = Some (Return [page_2024; page_2020])
  /\ (page_views page_2020 < 5)%Z
  /\ reported example_galib two_pages page_2020.
Proof.
  split; [reflexivity|].
  destruct (returned_views_below_threshold
              example_galib (example_client 10) two_pages 1
              [page_2024; page_2020] page_2020)
    as (Hlt & Hrep & _).
  - reflexivity.
  - simpl. auto.
  - split; [exact Hlt|exact Hrep].
Defined.

(** C2 as stated fails: a row whose metric value is [-1] is decoded by
    [int], passes the threshold test and is returned. *)
Lemma negative_views_returned :
  exists pages,
    get_underexposed_pages example_galib (example_client 10) negative_count 1
    = Some (Return pages)
    /\ ~ Forall (fun p => (0 <= page_views p)%Z
                          /\ (page_views p < _threshold (example_client 10))%Z)
           pages.
Proof.
  eexists. split; [reflexivity|].
  intros H. inversion H as [|p l [Hneg _] _]. simpl in Hneg. lia.
Qed.

(** C8.  For every element of the returned list: when an inclusion
    pattern is configured the path matches it from its start, and when an
    exclusion pattern is configured the pattern is found nowhere in the
    path. *)
Theorem returned_paths_respect_patterns (G : GaLib) (config : GaConfig)
  (server : nat -> Z -> result Report) (fuel : nat) (pages : list Page) (p : Page) :
  get_underexposed_pages G (GA4Client_init config) server fuel
  = Some (Return pages) ->
  In p pages ->
  (page_path_pattern config <> [] ->
   re_match_start G (page_path_pattern config) (page_path p) = true)
  /\ (page_path_exclude_pattern config <> [] ->
      re_search_any G (page_path_exclude_pattern config) (page_path p) = false).
Proof.
  intros Hrun Hin.
  destruct (returned_ok G _ server fuel pages p Hrun Hin)
    as (_ & Hinc & Hexc & _).
  unfold fails_inclusion, hits_exclusion in *. cbn in Hinc, Hexc.
  unfold compile_if_set in *. split; intros Hset.
  - destruct (page_path_pattern config); [congruence|].
    cbn in Hinc. apply negb_false_iff in Hinc. exact Hinc.
  - destruct (page_path_exclude_pattern config); [congruence|].
    exact Hexc.
Qed.

Lemma returned_paths_respect_patterns_witness :
  get_underexposed_pages example_galib (example_client 10) two_pages 1
  = Some (Return [page_2024; page_2020])
  /\ re_match_start example_galib (lit "/inventory/") (page_path page_2024) = true
  /\ re_search_any example_galib (lit "/sold/") (page_path page_2024) = false.
Proof.
  split; [reflexivity|].
  destruct (returned_paths_respect_patterns example_galib
              {| pageview_threshold := 5; max_results := 10;
                 page_path_pattern := lit "/inventory/";
                 page_path_exclude_pattern := lit "/sold/" |}
              two_pages 1 [page_2024; page_2020] page_2024) as [Hinc Hexc].
  - reflexivity.
  - simpl. auto.
  - split; [apply Hinc|apply Hexc]; discriminate.
Defined.




(** * Termination of the report loop *)

Section Termination.

Variable G : GaLib.
Variable self : GA4Client.
Variable server : nat -> Z -> result Report.

Local Open Scope Z_scope.

(** [total] bounds every total the server reports; a batch that has rows
    and does not reach the total it reports has at least [batch] rows. *)
Variables total batch : Z.
Hypothesis batch_positive : 1 <= batch.
Hypothesis totals_bounded :
  forall n off response,
    0 <= off -> server n off = Return response -> row_count response <= total.
Hypothesis batches_full :
  forall n off response,
    0 <= off ->
    server n off = Return response ->
    rows response <> [] ->
    batch <= Z.of_nat (length (rows response))
    \/ row_count response <= off + Z.of_nat (length (rows response)).

Lemma fold_rows_offset (some : list Row) (st : LoopState) :
  offset (fold_left (process_row G self) some st) = offset st.
Proof.
  revert st. induction some as [|row some IH]; intros st; [reflexivity|].
  cbn [fold_left]. rewrite IH. unfold process_row.
  destruct (decode_row G row) as [[path views]|]; [|reflexivity].
  destruct (fails_inclusion G self path || hits_exclusion G self path);
    [reflexivity|].
  destruct (views <? _threshold self); reflexivity.
Qed.

Lemma ceil_next (n : nat) :
  (Z.of_nat n + 1) * batch < total ->
  Z.of_nat n + 2 <= (total + batch - 1) / batch.
Proof.
  intros H. apply Z.div_le_lower_bound; [lia|]. nia.
Qed.

(** From a state reached after [n] full batches the loop ends within the
    bound. *)
Lemma pagination_ends (fuel n : nat) (st : LoopState) :
  Z.of_nat n * batch <= offset st ->
  (n < batches_needed total batch)%nat ->
  (batches_needed total batch <= fuel + n)%nat ->
  exists k, (k <= batches_needed total batch)%nat
            /\ ended_after (pagination G self server fuel n st) k.
Proof.
  revert n st. induction fuel as [|fuel IH]; intros n st Hoff Hn Hfuel; [lia|].
  cbn [pagination].
  destruct (server n (offset st)) as [response|e] eqn:Eserver.
  2:{ exists (S n). split; [lia|reflexivity]. }
  destruct (Z.eqb_spec (Z.of_nat (length (rows response))) 0) as [Hz|Hnz].
  { exists (S n). split; [lia|reflexivity]. }
  unfold advance at 1. cbn [offset]. rewrite fold_rows_offset.
  destruct (Z.geb_spec (offset st + Z.of_nat (length (rows response)))
              (row_count response)) as [Hge|Hlt].
  { exists (S n). split; [lia|reflexivity]. }
  assert (Hpos : 0 <= offset st) by nia.
  pose proof (totals_bounded _ _ _ Hpos Eserver) as Htotal.
  assert (Hrows : rows response <> []).
  { intros E. rewrite E in Hnz. apply Hnz. reflexivity. }
  destruct (batches_full _ _ _ Hpos Eserver Hrows) as [Hfull|Hlast]; [|lia].
  assert (Hnext : Z.of_nat (S n) * batch
                  <= offset st + Z.of_nat (length (rows response))) by nia.
  assert (Hroom : (S n < batches_needed total batch)%nat).
  { unfold batches_needed.
    assert (Z.of_nat n + 2 <= (total + batch - 1) / batch)
      by (apply ceil_next; nia).
    lia. }
  apply IH.
  - unfold advance; cbn [offset]. rewrite fold_rows_offset. exact Hnext.
  - exact Hroom.
  - lia.
Qed.

Lemma pagination_terminates (fuel : nat) :
  (batches_needed total batch <= fuel)%nat ->
  exists k, (k <= batches_needed total batch)%nat
            /\ ended_after (pagination G self server fuel 0 initial_state) k.
Proof.
  intros Hfuel. apply pagination_ends.
  - cbn. lia.
  - unfold batches_needed. lia.
  - lia.
Qed.

End Termination.

Lemma ended_returns (G : GaLib) (self : GA4Client)
  (server : nat -> Z -> result Report) (fuel k : nat) :
  ended_after (pagination G self server fuel 0 initial_state) k ->
  get_underexposed_pages G self server fuel <> None.
Proof.
  unfold get_underexposed_pages.
  destruct (pagination G self server fuel 0 initial_state);
    [discriminate|discriminate|contradiction].
Qed.

(** Against [growing] the loop never ends. *)
Lemma pagination_growing (fuel n : nat) (st : LoopState) :
  pagination example_galib (example_client 10) growing fuel n st = OutOfFuel.
Proof.
  revert n st. induction fuel as [|fuel IH]; intros n st; [reflexivity|].
  cbn [pagination growing rows row_count length].
  change (Z.of_nat 1 =? 0)%Z with false. cbv iota.
  unfold advance at 1. cbn [offset]. rewrite fold_rows_offset.
  destruct (Z.geb_spec (offset st + Z.of_nat 1) (offset st + 2)) as [H|_]; [lia|].
  apply IH.
Qed.

(** C7 (as amended).  When the totals the server reports (at offsets from
    0 on) are bounded by [total], the loop ends after at most [max(1, total)] calls of
    [_fetch_batch]; when moreover every batch that has rows and does not
    reach the reported total holds at least [_PAGE_SIZE] rows, it ends
    after at most [max(1, ceil(total / _PAGE_SIZE))] calls.  A batch
    without rows ends it at once.  In each case the function returns or
    raises with that much fuel. *)
Theorem report_loop_ends_when_totals_bounded (G : GaLib) (self : GA4Client)
  (server : nat -> Z -> result Report) (total : Z) :
  (forall n off response,
      (0 <= off)%Z ->
      server n off = Return response -> (row_count response <= total)%Z) ->
  (forall fuel,
      (batches_needed total 1 <= fuel)%nat ->
      exists k,
        (k <= batches_needed total 1)%nat
        /\ ended_after (pagination G self server fuel 0 initial_state) k
        /\ get_underexposed_pages G self server fuel <> None)
  /\ ((forall n off response,
          (0 <= off)%Z ->
          server n off = Return response ->
          rows response <> [] ->
          (_PAGE_SIZE <= Z.of_nat (length (rows response)))%Z
          \/ (row_count response <= off + Z.of_nat (length (rows response)))%Z) ->
      forall fuel,
        (batches_needed total _PAGE_SIZE <= fuel)%nat ->
        exists k,
          (k <= batches_needed total _PAGE_SIZE)%nat
          /\ ended_after (pagination G self server fuel 0 initial_state) k
          /\ get_underexposed_pages G self server fuel <> None)
  /\ (forall fuel n st response,
         server n (offset st) = Return response ->
         rows response = [] ->
         pagination G self server (S fuel) n st = Broke (S n) st).
Proof.
  intros Htotal. split; [|split].
  - intros fuel Hfuel.
    destruct (pagination_terminates G self server total 1) with (fuel := fuel)
      as (k & Hk & Hend); try assumption; try lia.
    + intros n off response _ _ Hrows. left.
      destruct (rows response); [congruence|cbn [length]; lia].
    + exists k. repeat split; try assumption.
      apply (ended_returns _ _ _ _ _ Hend).
  - intros Hfull fuel Hfuel.
    destruct (pagination_terminates G self server total _PAGE_SIZE) with (fuel := fuel)
      as (k & Hk & Hend); try assumption; try (unfold _PAGE_SIZE; lia).
    exists k. repeat split; try assumption.
    apply (ended_returns _ _ _ _ _ Hend).
  - intros fuel n st response Hserver Hrows.
    cbn [pagination]. rewrite Hserver, Hrows. reflexivity.
Qed.

(** The two pages of the scenario with a total of 2: one call. *)
Lemma report_loop_ends_when_totals_bounded_witness :
  exists k,
    (k <= 1)%nat
    /\ ended_after
         (pagination example_galib (example_client 10) two_pages 1 0 initial_state) k.
Proof.
  destruct (report_loop_ends_when_totals_bounded
              example_galib (example_client 10) two_pages 2) as (_ & H & _).
  - intros n off response _ [= <-]. simpl. lia.
  - destruct (H) with (fuel := 1%nat) as (k & Hk & Hend & _).
    + intros n off response Hoff [= <-] _. right. simpl. lia.
    + vm_compute. lia.
    + exists k. split; [exact Hk|exact Hend].
Defined.

(** C7 as stated fails: against a server whose reported total grows with
    the offset the loop does not end, whatever the fuel. *)
Lemma report_loop_diverges :
  ~ exists fuel,
      get_underexposed_pages example_galib (example_client 10) growing fuel <> None.
Proof.
  intros [fuel H]. apply H. unfold get_underexposed_pages.
  rewrite pagination_growing. reflexivity.
Qed.

(** * More on [_fetch_html] *)

Lemma total_wait_app (l1 l2 : list event) :
  total_wait (l1 ++ l2) = (total_wait l1 + total_wait l2)%Z.
Proof.
  unfold total_wait, waits. rewrite flat_map_app.
  induction (flat_map (fun e => match e with Get _ => [] | Sleep s => [s] end) l1)
    as [|x l IH]; simpl; [reflexivity|].
  rewrite IH. lia.
Qed.

Lemma attempts_made_app (l1 l2 : list event) :
  attempts_made (l1 ++ l2) = (attempts_made l1 + attempts_made l2)%nat.
Proof. unfold attempts_made. rewrite filter_app, length_app. reflexivity. Qed.

Lemma passes_status_ok (fetch_url : str) (r : Response) :
  passes_status r = true ->
  (status_code r =? 404)%Z = false /\ raise_for_status fetch_url r = None.
Proof.
  unfold passes_status, raise_for_status. intros H.
  apply orb_true_iff in H. rewrite Z.ltb_lt, Z.leb_le in H.
  split.
  - apply Z.eqb_neq. lia.
  - destruct (Z.leb_spec 400 (status_code r)), (Z.ltb_spec (status_code r) 500),
      (Z.leb_spec 500 (status_code r)), (Z.ltb_spec (status_code r) 600);
      try lia; reflexivity.
Qed.

Section FetchMore.

Variable L : Lib.
Variable cfg : Config.
Variable session_get : str -> nat -> get_outcome.
Variables url fetch_url : str.

Local Open Scope Z_scope.

(** The loop over the attempts [a .. a+n-1] when those before [a+j] fail
    and attempt [a+j] is answered with a status that passes. *)
Lemma fetch_loop_recovers (n a j : nat) (last_exc : option exn) (r : Response) :
  (j < n)%nat ->
  (forall k, (a <= k < a + j)%nat ->
             retryable_failure fetch_url (session_get fetch_url k) <> None) ->
  session_get fetch_url (a + j) = Got r ->
  passes_status r = true ->
  fetch_loop cfg session_get url fetch_url (map Z.of_nat (seq a n)) last_exc
  = (flat_map (fun i => Get fetch_url
                        :: (if i <? max_retries cfg - 1 then [Sleep (2 ^ i)] else []))
       (map Z.of_nat (seq a j)) ++ [Get fetch_url],
     Return (text r)).
Proof.
  revert a j last_exc.
  induction n as [|n IH]; intros a j last_exc Hj Hfail Hgot Hpass; [lia|].
  cbn [seq map fetch_loop]. destruct j as [|j].
  - rewrite Nat.add_0_r in Hgot. unfold try_once. rewrite Nat2Z.id, Hgot.
    destruct (passes_status_ok fetch_url r Hpass) as [-> ->]. reflexivity.
  - destruct (retryable_failure fetch_url (session_get fetch_url a)) as [e|] eqn:E.
    2:{ exfalso. apply (Hfail a); [lia|exact E]. }
    rewrite (try_once_retry session_get url fetch_url _ _ E).
    rewrite (IH (S a) j (Some e)).
    + cbn [seq map flat_map]. rewrite <- !app_comm_cons, <- app_assoc. reflexivity.
    + lia.
    + intros k Hk; apply Hfail; lia.
    + replace (S a + j)%nat with (a + S j)%nat by lia. exact Hgot.
    + exact Hpass.
Qed.

(** What every run of the loop over the attempts [a .. a+n-1] keeps to,
    where [a + n] is the retry count. *)
Lemma fetch_loop_bounds (n a : nat) (last_exc : option exn)
  (events : list event) (res : result str) :
  (a + n)%nat = Z.to_nat (max_retries cfg) ->
  fetch_loop cfg session_get url fetch_url (map Z.of_nat (seq a n)) last_exc
  = (events, res) ->
  (attempts_made events <= n)%nat
  /\ Forall (fun e => e = Get fetch_url \/ exists s, e = Sleep s) events
  /\ (n = 0%nat -> events = [])
  /\ ((1 <= n)%nat ->
      0 <= total_wait events
      /\ total_wait events + 2 ^ Z.of_nat a <= 2 ^ (max_retries cfg - 1)
      /\ exists before, events = before ++ [Get fetch_url]).
Proof.
  revert a last_exc events res.
  induction n as [|n IH]; intros a last_exc events res Hsum.
  - cbn [seq map fetch_loop]. intros [= <- _].
    repeat split; try constructor; try reflexivity; lia.
  - cbn [seq map fetch_loop].
    assert (Hpow : 2 ^ Z.of_nat a <= 2 ^ (max_retries cfg - 1))
      by (apply Z.pow_le_mono_r; lia).
    destruct (try_once session_get url fetch_url (Z.of_nat a)) as [r|exc].
    + intros [= <- _]. cbn.
      repeat split; try lia; try discriminate.
      * repeat constructor.
      * exists []. reflexivity.
    + destruct (fetch_loop cfg session_get url fetch_url
                  (map Z.of_nat (seq (S a) n)) (Some exc)) as [later r] eqn:E.
      intros [= <- _].
      destruct (IH (S a) (Some exc) later r ltac:(lia) E)
        as (Hatt & Hall & Hnil & Hpos).
      assert (Hget : attempts_made (Get fetch_url :: later) = S (attempts_made later))
        by reflexivity.
      destruct n as [|m].
      * rewrite (Hnil eq_refl).
        destruct (Z.ltb_spec (Z.of_nat a) (max_retries cfg - 1)); [lia|].
        cbn. repeat split; try lia; try discriminate.
        -- repeat constructor.
        -- exists []. reflexivity.
      * destruct (Hpos ltac:(lia)) as (Hw0 & Hw & before & Hbefore).
        destruct (Z.ltb_spec (Z.of_nat a) (max_retries cfg - 1)); [|lia].
        assert (Hsucc : 2 ^ Z.of_nat (S a) = 2 * 2 ^ Z.of_nat a)
          by (rewrite Nat2Z.inj_succ; apply Z.pow_succ_r; lia).
        change (Get fetch_url :: [Sleep (2 ^ Z.of_nat a)] ++ later)
          with ([Get fetch_url; Sleep (2 ^ Z.of_nat a)] ++ later).
        rewrite total_wait_app, attempts_made_app.
        change (total_wait [Get fetch_url; Sleep (2 ^ Z.of_nat a)])
          with (2 ^ Z.of_nat a + 0).
        change (attempts_made [Get fetch_url; Sleep (2 ^ Z.of_nat a)]) with 1%nat.
        assert (0 < 2 ^ Z.of_nat a) by (apply Z.pow_pos_nonneg; lia).
        repeat split; try lia; try discriminate.
        -- apply Forall_app. split; [|exact Hall].
           constructor; [left; reflexivity|].
           constructor; [right; eexists; reflexivity|constructor].
        -- exists ([Get fetch_url; Sleep (2 ^ Z.of_nat a)] ++ before).
           rewrite Hbefore, app_assoc. reflexivity.
Qed.


End FetchMore.

(** X1.  When the attempts before attempt [k] fail in a retryable way and
    attempt [k] is answered with a status outside 400..599, [_fetch_html]
    returns the body of that response after [k] waits of 1, 2, 4, ...
    seconds and makes no further request.  Any status below 400 or from 600
    on counts, not only 2xx. *)
Theorem fetch_html_recovers (L : Lib) (cfg : Config)
  (session_get : str -> nat -> get_outcome) (url fetch_url : str)
  (k : nat) (r : Response) :
  _append_utm L cfg url = Return fetch_url ->
  (k < Z.to_nat (max_retries cfg))%nat ->
  (forall j, (j < k)%nat ->
             retryable_failure fetch_url (session_get fetch_url j) <> None) ->
  session_get fetch_url k = Got r ->
  passes_status r = true ->
  _fetch_html L cfg session_get url
  = (backoff_events fetch_url (Z.of_nat k) ++ [Get fetch_url], Return (text r)).
Proof.
  intros Hutm Hk Hfail Hgot Hpass. unfold _fetch_html, range. rewrite Hutm.
  rewrite (fetch_loop_recovers cfg session_get url fetch_url
             (Z.to_nat (max_retries cfg)) 0%nat k None r Hk).
  - rewrite (emitted_backoff cfg fetch_url k) by lia. reflexivity.
  - intros j Hj; apply Hfail; lia.
  - exact Hgot.
  - exact Hpass.
Qed.

Lemma fetch_html_recovers_witness :
  exists fetch_url,
    _fetch_html (example_lib plain_page) (example_config 3) flaky good_url
    = ([Get fetch_url; Sleep 1; Get fetch_url; Sleep 2; Get fetch_url],
       Return (lit "<html></html>")).
Proof.
  exists (good_url ++ lit "?utm_source=ga4").
  rewrite (fetch_html_recovers (example_lib plain_page) (example_config 3) flaky
             good_url (good_url ++ lit "?utm_source=ga4") 2
             {| status_code := 200; reason := lit "OK"; text := lit "<html></html>" |}).
  - reflexivity.
  - reflexivity.
  - simpl. lia.
  - intros j Hj. destruct j as [|[|j]]; [discriminate|discriminate|lia].
  - reflexivity.
  - reflexivity.
Defined.

(** X2.  Whatever the network does, one call of [_fetch_html] makes at
    most [max_retries] requests, all of them to the URL the tracking step
    produced, waits less than [2^(max_retries-1)] seconds in total (not at
    all when [max_retries <= 1]), and never ends on a wait. *)
Theorem fetch_html_bounded (L : Lib) (cfg : Config)
  (session_get : str -> nat -> get_outcome) (url : str) :
  let events := fst (_fetch_html L cfg session_get url) in
  (attempts_made events <= Z.to_nat (max_retries cfg))%nat
  /\ (0 <= total_wait events)%Z
  /\ (total_wait events + 1 <= 2 ^ (Z.max 1 (max_retries cfg) - 1))%Z
  /\ (forall u, In (Get u) events -> _append_utm L cfg url = Return u)
  /\ (events = [] \/ exists before u, events = before ++ [Get u]).
Proof.
  unfold _fetch_html.
  destruct (_append_utm L cfg url) as [fetch_url|e]; cbn [fst].
  2:{ assert (0 < 2 ^ (Z.max 1 (max_retries cfg) - 1))%Z
        by (apply Z.pow_pos_nonneg; lia).
      cbn. split; [lia|]. split; [lia|]. split; [lia|].
      split; [contradiction|left; reflexivity]. }
  destruct (fetch_loop cfg session_get url fetch_url (range (max_retries cfg)) None)
    as [events res] eqn:E. cbn [fst]. unfold range in E.
  destruct (fetch_loop_bounds cfg session_get url fetch_url
              (Z.to_nat (max_retries cfg)) 0 None events res eq_refl E)
    as (Hatt & Hall & Hnil & Hpos).
  split; [exact Hatt|].
  assert (Hget : forall u, In (Get u) events -> Return fetch_url = Return u :> result str).
  { intros u Hin. rewrite Forall_forall in Hall.
    destruct (Hall _ Hin) as [[= ->]|[s Hs]]; [reflexivity|discriminate]. }
  destruct (Z.to_nat (max_retries cfg)) as [|m] eqn:Em.
  - assert (0 < 2 ^ (Z.max 1 (max_retries cfg) - 1))%Z
      by (apply Z.pow_pos_nonneg; lia).
    rewrite (Hnil eq_refl). cbn. split; [lia|]. split; [lia|].
    split; [contradiction|left; reflexivity].
  - destruct (Hpos ltac:(lia)) as (Hw0 & Hw & before & Hbefore).
    change (Z.of_nat 0) with 0%Z in Hw. rewrite Z.pow_0_r in Hw.
    replace (Z.max 1 (max_retries cfg)) with (max_retries cfg) by lia.
    split; [exact Hw0|]. split; [lia|]. split; [exact Hget|].
    right. exists before, fetch_url. exact Hbefore.
Qed.



(** * The tracking parameters *)

Lemma str_eqb_sym (a b : str) : str_eqb a b = str_eqb b a.
Proof.
  destruct (str_eqb a b) eqn:E.
  - apply str_eqb_eq in E. subst. symmetry. apply str_eqb_eq. reflexivity.
  - destruct (str_eqb b a) eqn:E'; [|reflexivity].
    apply str_eqb_eq in E'. subst.
    assert (str_eqb a a = true) by (apply str_eqb_eq; reflexivity). congruence.
Qed.

Lemma dict_lookup_set {V : Type} (key k : str) (v : V) (d : list (str * V)) :
  dict_lookup key (dict_set k v d)
  = if str_eqb k key then Some v else dict_lookup key d.
Proof.
  induction d as [|[k' v'] d IH]; cbn [dict_set dict_lookup].
  - reflexivity.
  - destruct (str_eqb k' k) eqn:Ek; cbn [dict_lookup].
    + apply str_eqb_eq in Ek. subst k'.
      destruct (str_eqb k key); reflexivity.
    + destruct (str_eqb k' key) eqn:Ekey.
      * apply str_eqb_eq in Ekey. subst k'.
        rewrite str_eqb_sym, Ek. reflexivity.
      * exact IH.
Qed.

Lemma dict_set_keys {V : Type} (k : str) (v : V) (d : list (str * V)) :
  map fst (dict_set k v d)
  = map fst d ++ match dict_lookup k d with Some _ => [] | None => [k] end.
Proof.
  induction d as [|[k' v'] d IH]; cbn [dict_set dict_lookup map fst app].
  - reflexivity.
  - destruct (str_eqb k' k) eqn:Ek; cbn [map fst].
    + rewrite app_nil_r. reflexivity.
    + rewrite IH. reflexivity.
Qed.

(** X4.  With tracking parameters configured and a URL that parses, the
    URL requested is rebuilt from the parsed one with only the query
    replaced.  In the query handed to [urlencode] a tracking key has the
    configured value as its single value, whatever the URL carried for
    it; every other key has the values the URL's query had; the keys of
    the URL keep their order and new keys come after them. *)
Theorem append_utm_merges_query (L : Lib) (cfg : Config) (url : str)
  (parsed : ParseResult) :
  utm_params cfg <> [] ->
  urlparse L url = Return parsed ->
  let existing := parse_qs L (query parsed) in
  let merged := merged_query cfg existing in
  _append_utm L cfg url
  = Return (urlunparse L
              {| scheme := scheme parsed; netloc := netloc parsed;
                 path := path parsed; params := params parsed;
                 query := urlencode L merged; fragment := fragment parsed |})
  /\ (forall key,
         dict_lookup key merged
         = match dict_lookup key (utm_params cfg) with
           | Some v => Some [v]
           | None => dict_lookup key existing
           end)
  /\ (exists added,
         map fst merged = map fst existing ++ added
         /\ forall key, In key added ->
                        dict_lookup key existing = None
                        /\ dict_lookup key (utm_params cfg) <> None).
Proof.
  intros Hparams Hparse existing merged. split; [|split].
  - unfold _append_utm. destruct (utm_params cfg) eqn:E; [congruence|].
    rewrite Hparse. cbn [bind]. unfold merged, merged_query, existing.
    rewrite E. reflexivity.
  - intros key. unfold merged, merged_query, utm_params.
    destruct (truthy (utm_source cfg)), (truthy (utm_medium cfg));
      cbn [app fold_left fst snd dict_lookup];
      rewrite ?dict_lookup_set;
      destruct (str_eqb (lit "utm_source") key) eqn:Es;
      destruct (str_eqb (lit "utm_medium") key) eqn:Em; try reflexivity.
    apply str_eqb_eq in Es, Em. subst key. discriminate Em.
  - unfold merged, merged_query, utm_params.
    destruct (truthy (utm_source cfg)), (truthy (utm_medium cfg));
      cbn [app fold_left fst snd]; rewrite ?dict_set_keys, ?dict_lookup_set.
    + change (str_eqb (lit "utm_source") (lit "utm_medium")) with false.
      cbv iota. rewrite <- app_assoc. eexists. split; [reflexivity|].
      intros key Hin. apply in_app_or in Hin.
      destruct Hin as [Hin|Hin].
      * destruct (dict_lookup (lit "utm_source") existing) eqn:E; [contradiction|].
        destruct Hin as [<-|[]]. split; [exact E|]. vm_compute. discriminate.
      * destruct (dict_lookup (lit "utm_medium") existing) eqn:E; [contradiction|].
        destruct Hin as [<-|[]]. split; [exact E|]. vm_compute. discriminate.
    + eexists. split; [reflexivity|]. intros key Hin.
      destruct (dict_lookup (lit "utm_source") existing) eqn:E; [contradiction|].
      destruct Hin as [<-|[]]. split; [exact E|]. vm_compute. discriminate.
    + eexists. split; [reflexivity|]. intros key Hin.
      destruct (dict_lookup (lit "utm_medium") existing) eqn:E; [contradiction|].
      destruct Hin as [<-|[]]. split; [exact E|]. vm_compute. discriminate.
    + exists []. rewrite app_nil_r. split; [reflexivity|]. intros key [].
Qed.

Lemma append_utm_merges_query_witness :
  dict_lookup (lit "utm_source")
    (merged_query (example_config 3)
       [(lit "utm_source", [lit "old"]); (lit "page", [lit "2"])])
  = Some [lit "ga4"]
  /\ dict_lookup (lit "page")
       (merged_query (example_config 3)
          [(lit "utm_source", [lit "old"]); (lit "page", [lit "2"])])
     = Some [lit "2"].
Proof.
  destruct (append_utm_merges_query query_lib (example_config 3) good_url
              {| scheme := []; netloc := []; path := good_url; params := [];
                 query := []; fragment := [] |})
    as (_ & Hlookup & _).
  - discriminate.
  - reflexivity.
  - split.
    + etransitivity; [exact (Hlookup (lit "utm_source"))|reflexivity].
    + etransitivity; [exact (Hlookup (lit "page"))|reflexivity].
Defined.



(** * The stock number and the faults of a page *)

Section PageFaults.

Variable L : Lib.
Variable cfg : Config.

Lemma search_stock_none (patterns : list str) (text : str) :
  search_stock L patterns text = Return None <->
  forall p, In p patterns -> re_search L p text = None.
Proof.
  induction patterns as [|p rest IH]; cbn [search_stock].
  - split; [intros _ q []|reflexivity].
  - destruct (re_search L p text) as [g|] eqn:E.
    + split.
      * destruct (group1_strip g); discriminate.
      * intros H. specialize (H p (or_introl eq_refl)). congruence.
    + rewrite IH. split.
      * intros H q [<-|Hq]; [exact E|exact (H q Hq)].
      * intros H q Hq. apply H. right; exact Hq.
Qed.

Lemma search_stock_first (before after : list str) (p : str) (g : group1)
  (text : str) :
  (forall q, In q before -> re_search L q text = None) ->
  re_search L p text = Some g ->
  search_stock L (before ++ p :: after) text
  = bind (group1_strip g)
      (fun stripped => Return (Some (upper (unicode_upper L) stripped))).
Proof.
  intros Hbefore Hp. induction before as [|q before IH]; cbn [app search_stock].
  - rewrite Hp. reflexivity.
  - rewrite (Hbefore q (or_introl eq_refl)). apply IH.
    intros r Hr. apply Hbefore. right; exact Hr.
Qed.

(** Dropping a block that contributes nothing does not change the
    result. *)
Lemma probe_blocks_drop (before after : list (option str)) (script : option str) :
  silent_block L cfg script ->
  probe_blocks L cfg (before ++ script :: after)
  = probe_blocks L cfg (before ++ after).
Proof.
  intros Hsilent. induction before as [|b before IH]; cbn [app probe_blocks].
  - unfold silent_block in Hsilent. rewrite Hsilent. reflexivity.
  - rewrite IH. reflexivity.
Qed.

End PageFaults.

(** X6.  The stock number is absent exactly when none of the configured
    patterns is found in the text searched.  Otherwise the first pattern
    found, in the configured order, decides alone: its group 1, trimmed
    and upper-cased, is the stock number, with no check of its form (it
    may be empty); and when that group is missing the extraction raises,
    whatever a later pattern would have found. *)
Theorem stock_number_first_pattern_decides (L : Lib) (cfg : Config) (doc : soup) :
  (_extract_stock_number L cfg doc = Return None <->
   forall p, In p (stock_patterns cfg) -> re_search L p (scope_text doc) = None)
  /\ (forall before p after g,
         stock_patterns cfg = before ++ p :: after ->
         (forall q, In q before -> re_search L q (scope_text doc) = None) ->
         re_search L p (scope_text doc) = Some g ->
         _extract_stock_number L cfg doc
         = match g with
           | Group s => Return (Some (upper (unicode_upper L) (strip s)))
           | Unmatched =>
               Raise (AttributeError
                        (lit "'NoneType' object has no attribute 'strip'"))
           | NoSuchGroup => Raise (IndexError (lit "no such group"))
           end).
Proof.
  unfold _extract_stock_number. split.
  - apply search_stock_none.
  - intros before p after g Hpatterns Hbefore Hp. rewrite Hpatterns.
    rewrite (search_stock_first L before after p g _ Hbefore Hp).
    destruct g; reflexivity.
Qed.

(** On the page with the label [STOCK:] the label pattern is found and
    has no group: the extraction raises. *)
Lemma stock_number_first_pattern_decides_witness :
  _extract_stock_number (example_lib plain_page) (example_config 3) (page_with [])
  = Raise (IndexError (lit "no such group"))
  /\ _extract_stock_number (example_lib plain_page) (example_config 3) plain_page
     = Return None.
Proof.
  destruct (stock_number_first_pattern_decides
              (example_lib plain_page) (example_config 3) (page_with []))
    as [_ Hfirst].
  destruct (stock_number_first_pattern_decides
              (example_lib plain_page) (example_config 3) plain_page)
    as [Hnone _].
  split.
  - apply (Hfirst [] (lit "STOCK:") [] NoSuchGroup).
    + reflexivity.
    + intros q [].
    + reflexivity.
  - apply Hnone. intros p [<-|[]]. reflexivity.
Defined.

(** X7.  A fault while the stock number is extracted discards a VIN that
    was already found: the result has status [failed], the message of the
    fault after [Parse error: ], and neither identifier. *)
Theorem stock_fault_discards_vin (L : Lib) (cfg : Config)
  (session_get : str -> nat -> get_outcome) (url html : str)
  (events : list event) (doc : soup) (v : str) (e : exn) :
  _fetch_html L cfg session_get url = (events, Return html) ->
  BeautifulSoup L html = Return doc ->
  vin_of_page L cfg doc = Return (Some v) ->
  _extract_stock_number L cfg doc = Raise e ->
  exists r,
    scrape_page L cfg session_get url = (events, Return r)
    /\ scrape_status r = failed
    /\ error_message r = Some (lit "Parse error: " ++ exn_str e)
    /\ vin_number r = None
    /\ stock_number r = None.
Proof.
  intros Hfetch Hsoup Hvin Hstock. unfold scrape_page, parse_and_extract.
  rewrite Hfetch, Hsoup. cbn [bind]. rewrite Hvin. cbn [bind]. rewrite Hstock.
  cbn [bind]. eexists. split; [reflexivity|]. cbn. auto.
Qed.

Lemma stock_fault_discards_vin_witness :
  vin_of_page (example_lib (page_with [vin_block])) (example_config 3)
    (page_with [vin_block])
  = Return (Some (lit "1FTFW1ET1EKD12345"))
  /\ exists events r,
      scrape_page (example_lib (page_with [vin_block])) (example_config 3)
        serving good_url
      = (events, Return r)
      /\ scrape_status r = failed /\ vin_number r = None.
Proof.
  split; [reflexivity|].
  destruct (stock_fault_discards_vin
              (example_lib (page_with [vin_block])) (example_config 3) serving
              good_url (lit "<html></html>")
              [Get (good_url ++ lit "?utm_source=ga4")]
              (page_with [vin_block]) (lit "1FTFW1ET1EKD12345")
              (IndexError (lit "no such group")))
    as (r & Hrun & Hstatus & _ & Hvin & _);
    [reflexivity|reflexivity|reflexivity|reflexivity|].
  exists [Get (good_url ++ lit "?utm_source=ga4")], r. auto.
Defined.

(** X8.  A block that cannot be used is passed over wherever it stands:
    a tag without a single string, an empty string, text [json.loads]
    rejects with [JSONDecodeError], or a document that is neither an
    object nor a list.  The result of the structured-data path is the one
    the page would give without that block. *)
Theorem jsonld_passes_over_unusable_blocks (L : Lib) (cfg : Config)
  (before after : list (option str)) (script : option str) :
  script = None
  \/ script = Some []
  \/ (exists raw msg, script = Some raw /\ json_loads L raw = Raise (JSONDecodeError msg))
  \/ (exists raw data,
        script = Some raw /\ json_loads L raw = Return data
        /\ match data with JDict _ | JList _ => False | _ => True end) ->
  probe_blocks L cfg (before ++ script :: after)
  = probe_blocks L cfg (before ++ after).
Proof.
  intros H. apply probe_blocks_drop. unfold silent_block, probe_block.
  destruct H as [->|[->|[(raw & msg & -> & Hl)|(raw & data & -> & Hl & Hd)]]];
    try reflexivity.
  - destruct (truthy raw); [|reflexivity]. cbn [negb]. rewrite Hl. reflexivity.
  - destruct (truthy raw); [|reflexivity]. cbn [negb]. rewrite Hl.
    destruct data; try reflexivity; contradiction.
Qed.

(** An undecodable block before the block of the scenario. *)
Lemma jsonld_passes_over_unusable_blocks_witness :
  probe_blocks (example_lib plain_page) (example_config 3)
    [Some (lit "{not json"); Some vin_block]
  = Return (Some (lit "1FTFW1ET1EKD12345")).
Proof.
  assert (H : probe_blocks (example_lib plain_page) (example_config 3)
                ([] ++ Some (lit "{not json") :: [Some vin_block])
              = probe_blocks (example_lib plain_page) (example_config 3)
                  ([] ++ [Some vin_block])).
  { apply jsonld_passes_over_unusable_blocks.
    right. right. left. exists (lit "{not json"), (lit "Expecting value").
    split; reflexivity. }
  cbn [app] in H. rewrite H. reflexivity.
Defined.

(** X9.  A block whose [@graph] is a number, a boolean or null cannot be
    iterated: the [TypeError] ends the VIN extraction at that block, the
    blocks after it and the visible text are not consulted, and
    [scrape_page] reports status [failed] with no identifier. *)
Theorem graph_not_iterable_fails_page (L : Lib) (cfg : Config) (doc : soup)
  (before after : list (option str)) (raw : str)
  (d : list (str * json)) (graph : json) :
  ld_json_scripts doc = before ++ Some raw :: after ->
  Forall (silent_block L cfg) before ->
  truthy raw = true ->
  json_loads L raw = Return (JDict d) ->
  dict_get (lit "@graph") d = Some graph ->
  match graph with
  | JNone | JBool _ | JInt _ | JFloat _ => True
  | _ => False
  end ->
  exists msg,
    iterate graph = Raise (TypeError msg)
    /\ vin_of_page L cfg doc = Raise (TypeError msg)
    /\ forall session_get url html events,
        _fetch_html L cfg session_get url = (events, Return html) ->
        BeautifulSoup L html = Return doc ->
        scrape_page L cfg session_get url
        = (events,
           Return (with_failure (new_result L url) failed
                     (lit "Parse error: " ++ msg))).
Proof.
  intros Hscripts Hbefore Hraw Hloads Hgraph Hscalar.
  assert (Hiter : exists msg, iterate graph = Raise (TypeError msg))
    by (destruct graph; try contradiction; eexists; reflexivity).
  destruct Hiter as [msg Hiter]. exists msg. split; [exact Hiter|].
  assert (Hblock : probe_block L cfg (Some raw) = Raise (TypeError msg)).
  { unfold probe_block, candidates_of. rewrite Hraw, Hloads, Hgraph.
    cbn [negb]. rewrite Hiter. reflexivity. }
  assert (Hvin : vin_of_page L cfg doc = Raise (TypeError msg)).
  { unfold vin_of_page, _extract_vin_from_jsonld. rewrite Hscripts.
    clear Hscripts. induction Hbefore as [|b before Hb _ IH]; cbn [app probe_blocks].
    - rewrite Hblock. reflexivity.
    - unfold silent_block in Hb. rewrite Hb. cbn [bind].
      destruct (probe_blocks L cfg (before ++ Some raw :: after)) as [[w|]|e];
        cbn [bind] in *; try discriminate; exact IH. }
  split; [exact Hvin|].
  intros session_get url html events Hfetch Hsoup.
  unfold scrape_page, parse_and_extract. rewrite Hfetch, Hsoup. cbn [bind].
  rewrite Hvin. reflexivity.
Qed.

(** The number graph before the block of the scenario: no VIN. *)
Lemma graph_not_iterable_fails_page_witness :
  vin_of_page (graph_lib plain_page) (example_config 3)
    (page_with [number_graph_block; vin_block])
  = Raise (TypeError (lit "'int' object is not iterable")).
Proof.
  destruct (graph_not_iterable_fails_page (graph_lib plain_page) (example_config 3)
              (page_with [number_graph_block; vin_block])
              [] [Some vin_block] number_graph_block
              [(lit "@graph", JInt 5)] (JInt 5)
              eq_refl (Forall_nil _) eq_refl eq_refl eq_refl I)
    as (msg & Hiter & Hvin & _).
  injection Hiter as <-. exact Hvin.
Defined.

(** * The shape of a reported VIN *)

Section ReportedVin.

Variable table : char -> list char.
Hypothesis upper_long_s : table 0x17F = [ch "S"].
Hypothesis upper_kelvin : table 0x212A = [0x212A].

(** A character of an upper-cased VIN: of the set itself, or the Kelvin
    sign. *)
Let settled (c : char) : Prop := vin_set c = true \/ c = 0x212A.

Lemma vin_set_ascii (c : char) : vin_set c = true -> c < 128.
Proof.
  unfold vin_set, in_range, ch; simpl.
  rewrite !orb_true_iff, !andb_true_iff, !N.leb_le, N.eqb_eq. lia.
Qed.

Lemma upper_char_accepted (c : char) :
  set_ignorecase vin_set c = true ->
  exists c', upper_char table c = [c'] /\ settled c'.
Proof.
  intros Hc. destruct (N.ltb_spec c 128) as [Hlt|Hge].
  - assert (Hfree : upper_char table c = upper_char (fun _ => []) c).
    { unfold upper_char.
      destruct (in_range (ch "a") (ch "z") c); [reflexivity|].
      destruct (N.ltb_spec c 128); [reflexivity|lia]. }
    pose proof (forallb_below
                  (fun c => if set_ignorecase vin_set c
                            then match upper_char (fun _ => []) c with
                                 | [c'] => vin_set c'
                                 | _ => false
                                 end
                            else true) 128 eq_refl c Hlt) as H.
    cbv beta in H. rewrite Hc, <- Hfree in H.
    destruct (upper_char table c) as [|c' [|]]; try discriminate.
    exists c'. split; [reflexivity|left; exact H].
  - rewrite set_ignorecase_vin_set in Hc.
    assert (Hspec : spec_vin_char c = false).
    { unfold spec_vin_char.
      destruct (vin_set c) eqn:Ev; [apply vin_set_ascii in Ev; lia|].
      unfold in_range, ch; simpl.
      destruct (N.leb_spec 97 c), (N.leb_spec c 122); try lia; reflexivity. }
    rewrite Hspec in Hc. cbn [orb] in Hc.
    assert (Hup : upper_char table c = table c).
    { unfold upper_char, in_range, ch; simpl.
      destruct (N.leb_spec 97 c), (N.leb_spec c 122), (N.ltb_spec c 128);
        try lia; reflexivity. }
    rewrite Hup.
    destruct (N.eqb_spec c 0x17F) as [E1|_].
    + subst c. exists (ch "S"). split; [exact upper_long_s|left; reflexivity].
    + destruct (N.eqb_spec c 0x212A) as [E2|_]; [|discriminate].
      subst c. exists 0x212A. split; [exact upper_kelvin|right; reflexivity].
Qed.

Lemma upper_accepted (s : str) :
  forallb (set_ignorecase vin_set) s = true ->
  length (upper table s) = length s /\ Forall settled (upper table s).
Proof.
  unfold upper. induction s as [|c s IH]; cbn [forallb flat_map].
  - intros _. split; [reflexivity|constructor].
  - intros H. apply andb_true_iff in H as [Hc Hs].
    destruct (upper_char_accepted c Hc) as (c' & -> & Hc').
    destruct (IH Hs) as [Hlen Hall]. cbn [app length].
    split; [rewrite Hlen; reflexivity|constructor; assumption].
Qed.

Lemma settled_facts (c : char) :
  settled c ->
  is_space c = false
  /\ set_ignorecase vin_set c = true
  /\ upper_char table c = [c].
Proof.
  intros [Hc| ->].
  - pose proof (vin_set_ascii c Hc) as Hlt.
    pose proof (forallb_below
                  (fun c => if vin_set c
                            then negb (is_space c) && set_ignorecase vin_set c
                                 && match upper_char (fun _ => []) c with
                                    | [c'] => c' =? c
                                    | _ => false
                                    end
                            else true) 128 eq_refl c Hlt) as H.
    cbv beta in H. rewrite Hc in H.
    apply andb_true_iff in H as [H Hup]. apply andb_true_iff in H as [Hsp Hset].
    apply negb_true_iff in Hsp. repeat split; try assumption.
    assert (Hfree : upper_char table c = upper_char (fun _ => []) c).
    { unfold upper_char.
      destruct (in_range (ch "a") (ch "z") c); [reflexivity|].
      destruct (N.ltb_spec c 128); [reflexivity|lia]. }
    rewrite Hfree.
    destruct (upper_char (fun _ => []) c) as [|c' [|]]; try discriminate.
    apply N.eqb_eq in Hup. subst. reflexivity.
  - repeat split; try reflexivity. exact upper_kelvin.
Qed.

Lemma strip_settled (s : str) : Forall settled s -> strip s = s.
Proof.
  intros H.
  assert (Hl : forall t, Forall settled t -> lstrip t = t).
  { intros t Ht. destruct Ht as [|c t Hc _]; [reflexivity|].
    cbn [lstrip]. destruct (settled_facts c Hc) as [-> _]. reflexivity. }
  unfold strip, rstrip. rewrite (Hl s H).
  rewrite (Hl (rev s)) by (apply Forall_rev; exact H).
  apply rev_involutive.
Qed.

(** The upper-cased form of an accepted value is itself accepted, has 17
    characters and is left as it is by [strip] and by [upper]. *)
Lemma validated_vin_shape (L : Lib) (v : str) :
  unicode_upper L = table ->
  validated_vin L v ->
  length v = 17%nat
  /\ _is_valid_vin v = true
  /\ strip v = v
  /\ upper table v = v
  /\ Forall (fun c => vin_set c = true \/ c = 0x212A) v.
Proof.
  intros Htable (candidate & Hstrip & Hvalid & ->). rewrite Htable.
  apply is_valid_vin_iff in Hvalid. rewrite Hstrip in Hvalid.
  destruct Hvalid as [Hlen Hall].
  destruct (upper_accepted candidate Hall) as [Hlen' Hsettled].
  pose proof (strip_settled _ Hsettled) as Hfix.
  split; [congruence|]. split; [|split; [exact Hfix|split; [|exact Hsettled]]].
  - apply is_valid_vin_iff. rewrite Hfix. split; [congruence|].
    apply forallb_forall. intros c Hc. rewrite Forall_forall in Hsettled.
    apply (settled_facts c (Hsettled c Hc)).
  - clear Hfix Hlen'. unfold upper at 1.
    induction Hsettled as [|c t Hc _ IH]; [reflexivity|].
    cbn [flat_map]. destruct (settled_facts c Hc) as (_ & _ & ->).
    rewrite IH. reflexivity.
Qed.

End ReportedVin.

(** X10.  With the upper-case table of Unicode for the long s and the
    Kelvin sign (U+017F gives S, U+212A stays), a VIN that [scrape_page]
    reports has exactly 17 characters, each an upper-case letter of the
    set, a digit or the Kelvin sign; it passes the check itself and is
    left unchanged by trimming and by upper-casing again. *)
Theorem reported_vin_is_normal_form (L : Lib) (cfg : Config)
  (session_get : str -> nat -> get_outcome) (url : str)
  (events : list event) (r : ScrapeResult) (v : str) :
  unicode_upper L 0x17F = [ch "S"] ->
  unicode_upper L 0x212A = [0x212A] ->
  scrape_page L cfg session_get url = (events, Return r) ->
  vin_number r = Some v ->
  length v = 17%nat
  /\ _is_valid_vin v = true
  /\ strip v = v
  /\ upper (unicode_upper L) v = v
  /\ Forall (fun c => vin_set c = true \/ c = 0x212A) v.
Proof.
  intros Hs Hk Hrun Hvin.
  apply (validated_vin_shape (unicode_upper L) Hs Hk L v eq_refl).
  exact (scrape_page_vin_sound L cfg session_get url events r v Hrun Hvin).
Qed.

(** A page whose block holds a value with the long s: the VIN reported
    has the letter S in its place. *)
Lemma reported_vin_is_normal_form_witness :
  exists events r,
    scrape_page (table_lib long_s_page) (example_config 3) serving good_url
    = (events, Return r)
    /\ vin_number r = Some (lit "1FTFW1ETSEKD12345")
    /\ _is_valid_vin (lit "1FTFW1ETSEKD12345") = true.
Proof.
  destruct (scrape_page (table_lib long_s_page) (example_config 3) serving good_url)
    as [events res] eqn:E.
  vm_compute in E. injection E as <- <-.
  eexists _, _. split; [reflexivity|]. split; [reflexivity|].
  apply (reported_vin_is_normal_form (table_lib long_s_page) (example_config 3)
           serving good_url
           [Get (good_url ++ lit "?utm_source=ga4")]
           {| full_url := good_url; stock_number := None;
              vin_number := Some (lit "1FTFW1ETSEKD12345");
              scraped_at := lit "2026-01-01T00:00:00+00:00";
              scrape_status := success; error_message := None |}
           (lit "1FTFW1ETSEKD12345")); reflexivity.
Defined.

(** * The report loop as a filter over the batches *)

Section LoopAsFilter.

Variable G : GaLib.
Variable self : GA4Client.
Variable server : nat -> Z -> result Report.

Local Open Scope Z_scope.

Lemma fold_rows_effect (some : list Row) (st : LoopState) :
  let st' := fold_left (process_row G self) some st in
  underexposed st' = underexposed st ++ flat_map (keep_row G self) some
  /\ offset st' = offset st
  /\ total_seen st' = total_seen st + Z.of_nat (length (decodable G some))
  /\ filtered_count st'
     = filtered_count st + Z.of_nat (length (filtered_out G self some)).
Proof.
  revert st. induction some as [|row some IH]; intros st; cbn zeta.
  - cbn. rewrite app_nil_r. repeat split; lia.
  - cbn [fold_left]. destruct (IH (process_row G self st row)) as (Hu & Ho & Ht & Hf).
    rewrite Hu, Ho, Ht, Hf. clear IH Hu Ho Ht Hf.
    unfold process_row, keep_row, decodable, filtered_out.
    cbn [flat_map filter].
    destruct (decode_row G row) as [[path views]|].
    + destruct (fails_inclusion G self path || hits_exclusion G self path).
      * cbn [underexposed offset total_seen filtered_count length app].
        repeat split; try reflexivity; lia.
      * destruct (views <? _threshold self);
          cbn [underexposed offset total_seen filtered_count length app];
          rewrite <- ?app_assoc; repeat split; try reflexivity; lia.
    + cbn [app]. repeat split; try reflexivity; lia.
Qed.

(** The state the loop ends in, in terms of the batches it worked
    through. *)
Lemma pagination_effect (fuel n k : nat) (st st' : LoopState) :
  pagination G self server fuel n st = Broke k st' ->
  let all_rows := flat_map rows (batches_fetched server fuel n (offset st)) in
  underexposed st' = underexposed st ++ flat_map (keep_row G self) all_rows
  /\ offset st' = offset st + Z.of_nat (length all_rows)
  /\ total_seen st' = total_seen st + Z.of_nat (length (decodable G all_rows))
  /\ filtered_count st'
     = filtered_count st + Z.of_nat (length (filtered_out G self all_rows)).
Proof.
  revert n st. induction fuel as [|fuel IH]; intros n st; [discriminate|].
  cbn [pagination batches_fetched].
  destruct (server n (offset st)) as [response|e]; [|discriminate].
  destruct (Z.of_nat (length (rows response)) =? 0) eqn:Ez.
  - intros [= _ <-]. cbn. rewrite app_nil_r. repeat split; lia.
  - destruct (fold_rows_effect (rows response) st) as (Hu & Ho & Ht & Hf).
    cbn zeta in Hu, Ho, Ht, Hf.
    unfold advance at 1. cbn [offset]. rewrite Ho.
    destruct (offset st + Z.of_nat (length (rows response)) >=? row_count response).
    + intros [= _ <-]. unfold advance.
      cbn [flat_map underexposed offset total_seen filtered_count].
      rewrite app_nil_r, Hu, Ho, Ht, Hf. repeat split; reflexivity.
    + intros Hrun. apply IH in Hrun. cbn zeta in Hrun.
      unfold advance in Hrun.
      cbn [underexposed offset total_seen filtered_count] in Hrun.
      rewrite Ho in Hrun. destruct Hrun as (Hu' & Ho' & Ht' & Hf').
      cbn [flat_map]. unfold decodable, filtered_out in *.
      rewrite Hu', Ho', Ht', Hf', Hu, Ht, Hf.
      rewrite !filter_app, !length_app, flat_map_app, <- app_assoc.
      repeat split; try reflexivity; lia.
Qed.

(** The [j]-th batch is the answer to call [n + j], asked at the offset
    the rows of the batches before it add up to. *)
Lemma batches_fetched_answers (fuel n j : nat) (off : Z) (b : Report) :
  nth_error (batches_fetched server fuel n off) j = Some b ->
  server (n + j)
    (off + Z.of_nat (length (flat_map rows
                               (firstn j (batches_fetched server fuel n off)))))
  = Return b
  /\ rows b <> [].
Proof.
  revert n j off. induction fuel as [|fuel IH]; intros n j off.
  - destruct j; discriminate.
  - cbn [batches_fetched].
    destruct (server n off) as [response|e] eqn:Es; [|destruct j; discriminate].
    destruct (Z.eqb_spec (Z.of_nat (length (rows response))) 0) as [Hz|Hnz];
      [destruct j; discriminate|].
    assert (Hrows : rows response <> [])
      by (intros E; rewrite E in Hnz; apply Hnz; reflexivity).
    destruct (off + Z.of_nat (length (rows response)) >=? row_count response).
    + destruct j as [|[|j]]; try discriminate.
      intros [= <-]. cbn. rewrite Nat.add_0_r, Z.add_0_r. auto.
    + destruct j as [|j].
      * intros [= <-]. cbn. rewrite Nat.add_0_r, Z.add_0_r. auto.
      * cbn [nth_error firstn flat_map]. intros Hj.
        destruct (IH (S n) j _ Hj) as [Hs Hb]. split; [|exact Hb].
        rewrite length_app, Nat2Z.inj_add, Z.add_assoc.
        replace (n + S j)%nat with (S n + j)%nat by lia. exact Hs.
Qed.

Lemma keep_row_counts (l : list Row) :
  (length (flat_map (keep_row G self) l) + length (filtered_out G self l)
   <= length (decodable G l) <= length l)%nat.
Proof.
  unfold keep_row, filtered_out, decodable.
  induction l as [|row l IH]; cbn [flat_map filter length]; [lia|].
  destruct (decode_row G row) as [[path views]|].
  - destruct (fails_inclusion G self path || hits_exclusion G self path).
    + cbn [app length]. lia.
    + destruct (views <? _threshold self); cbn [app length]; lia.
  - cbn [app]. lia.
Qed.

End LoopAsFilter.

(** X11.  The returned list is the ranking and capping of one list: the
    pages of the rows that decode, pass both path filters and lie below
    the threshold, taken over the batches in the order fetched.  Batch
    [j] is the answer to call [j] at the offset the earlier batches add
    up to.  When that list fits the cap nothing is lost: every such row
    of every batch has its page in the result. *)
Theorem returned_is_filter_of_batches (G : GaLib) (self : GA4Client)
  (server : nat -> Z -> result Report) (fuel : nat) (pages : list Page) :
  get_underexposed_pages G self server fuel = Some (Return pages) ->
  let batches := batches_fetched server fuel 0 0 in
  let retained := flat_map (keep_row G self) (flat_map rows batches) in
  pages = rank_and_cap G self retained
  /\ (forall j b,
         nth_error batches j = Some b ->
         server j (Z.of_nat (length (flat_map rows (firstn j batches)))) = Return b)
  /\ ((Z.of_nat (length retained) <= _max_results self)%Z ->
      Permutation pages retained
      /\ forall b row p,
          In b batches -> In row (rows b) -> In p (keep_row G self row) ->
          In p pages).
Proof.
  intros Hrun batches retained.
  destruct (returned_from_retained G self server fuel pages Hrun)
    as (k & st & Hloop & -> & _).
  destruct (pagination_effect G self server fuel 0 k initial_state st Hloop)
    as (Hu & _).
  cbn [underexposed offset initial_state app] in Hu.
  fold batches in Hu. fold retained in Hu. rewrite Hu.
  split; [reflexivity|]. split.
  - intros j b Hj.
    destruct (batches_fetched_answers server fuel 0 j 0 b Hj) as [Hs _].
    exact Hs.
  - intros Hfits.
    assert (Hall : rank_and_cap G self retained = sort_newest_first G retained).
    { unfold rank_and_cap. rewrite sort_newest_first_length.
      destruct (Z.gtb_spec (Z.of_nat (length retained)) (_max_results self));
        [lia|reflexivity]. }
    rewrite Hall. split; [apply sort_newest_first_perm|].
    intros b row p Hb Hrow Hp.
    apply (Permutation_in _ (Permutation_sym (sort_newest_first_perm G retained))).
    unfold retained. apply in_flat_map. exists row. split; [|exact Hp].
    apply in_flat_map. exists b. auto.
Qed.

Lemma returned_is_filter_of_batches_witness :
  get_underexposed_pages example_galib (example_client 10) two_pages 1
  = Some (Return [page_2024; page_2020])
  /\ Permutation [page_2024; page_2020] [page_2020; page_2024].
Proof.
  split; [reflexivity|].
  destruct (returned_is_filter_of_batches example_galib (example_client 10)
              two_pages 1 [page_2024; page_2020] eq_refl)
    as (_ & _ & Hfits).
  destruct Hfits as [Hperm _]; [simpl; lia|]. exact Hperm.
Defined.

(** X12.  The counters of the summary line agree with each other when the
    loop ends: the offset is the number of rows received, [total_seen]
    counts the rows among them that decode, [filtered_count] those of
    them a path filter dropped, and the retained pages and the filtered
    rows together are no more than the rows seen. *)
Theorem loop_counters_agree (G : GaLib) (self : GA4Client)
  (server : nat -> Z -> result Report) (fuel k : nat) (st : LoopState) :
  pagination G self server fuel 0 initial_state = Broke k st ->
  let all_rows := flat_map rows (batches_fetched server fuel 0 0) in
  offset st = Z.of_nat (length all_rows)
  /\ total_seen st = Z.of_nat (length (decodable G all_rows))
  /\ filtered_count st = Z.of_nat (length (filtered_out G self all_rows))
  /\ (0 <= filtered_count st)%Z
  /\ (Z.of_nat (length (underexposed st)) + filtered_count st <= total_seen st)%Z
  /\ (total_seen st <= offset st)%Z.
Proof.
  intros Hloop all_rows.
  destruct (pagination_effect G self server fuel 0 k initial_state st Hloop)
    as (Hu & Ho & Ht & Hf).
  cbn [underexposed offset total_seen filtered_count initial_state app] in *.
  fold all_rows in Hu, Ho, Ht, Hf.
  pose proof (keep_row_counts G self all_rows) as Hcount.
  rewrite Hu, Ho, Ht, Hf. repeat split; lia.
Qed.

Lemma loop_counters_agree_witness :
  exists st,
    pagination example_galib (example_client 10) two_pages 1 0 initial_state
    = Broke 1 st
    /\ offset st = 2%Z /\ total_seen st = 2%Z /\ filtered_count st = 0%Z.
Proof.
  eexists. split; [reflexivity|].
  destruct (loop_counters_agree example_galib (example_client 10) two_pages 1 1 _
              eq_refl)
    as (Ho & Ht & Hf & _).
  rewrite Ho, Ht, Hf. repeat split; reflexivity.
Defined.

(** * The year of a path and the edge values of the cap *)

Lemma decimal_value_bound (G : GaLib) (c : char) (v : N) :
  (forall c v, unicode_decimal G c = Some v -> v <= 9) ->
  decimal_value G c = Some v -> v <= 9.
Proof.
  intros Htable. unfold decimal_value, in_range, ch; simpl.
  destruct (N.leb_spec 48 c), (N.leb_spec c 57); cbn [andb].
  - intros [= <-]. lia.
  - destruct (c <? 128); [discriminate|apply Htable].
  - destruct (c <? 128); [discriminate|apply Htable].
  - destruct (c <? 128); [discriminate|apply Htable].
Qed.

Lemma slug_year_at_bound (G : GaLib) (s : str) (x y z w : N) :
  (forall c v, unicode_decimal G c = Some v -> v <= 9) ->
  slug_year_at G s = Some (x, y, z, w) ->
  x <= 9 /\ y <= 9 /\ z <= 9 /\ w <= 9.
Proof.
  intros Htable. unfold slug_year_at.
  destruct (strip_prefix (lit "/inventory/") s) as [[|a [|b [|c [|d [|e rest]]]]]|];
    try discriminate.
  destruct (decimal_value G a) as [x'|] eqn:Ea; [|discriminate].
  destruct (decimal_value G b) as [y'|] eqn:Eb; [|discriminate].
  destruct (decimal_value G c) as [z'|] eqn:Ec; [|discriminate].
  destruct (decimal_value G d) as [w'|] eqn:Ed; [|discriminate].
  destruct (e =? ch "-"); [|discriminate].
  intros [= <- <- <- <-].
  repeat split; eapply decimal_value_bound; eauto.
Qed.

(** X13.  The year of a path is a number from 0 to 9999 (given that the
    digit table gives values up to 9).  For a path that begins with
    [/inventory/], four ASCII digits and a hyphen it is the number those
    digits write, whatever follows. *)
Theorem slug_year_range_and_prefix (G : GaLib) :
  (forall c v, unicode_decimal G c = Some v -> v <= 9) ->
  (forall path, (0 <= _slug_year G path <= 9999)%Z)
  /\ (forall a b c d rest,
         a <= 9 -> b <= 9 -> c <= 9 -> d <= 9 ->
         _slug_year G (lit "/inventory/"
                       ++ [48 + a; 48 + b; 48 + c; 48 + d; ch "-"] ++ rest)
         = Z.of_N (1000 * a + 100 * b + 10 * c + d)).
Proof.
  intros Htable. split.
  - intros path. unfold _slug_year.
    destruct (_SLUG_YEAR_RE_search G path) as [[[[x y] z] w]|] eqn:E; [|lia].
    assert (H : x <= 9 /\ y <= 9 /\ z <= 9 /\ w <= 9).
    { induction path as [|c path IH]; cbn [_SLUG_YEAR_RE_search] in E.
      - destruct (slug_year_at G []) as [g|] eqn:Eat; [|discriminate].
        injection E as ->. exact (slug_year_at_bound G _ _ _ _ _ Htable Eat).
      - destruct (slug_year_at G (c :: path)) as [g|] eqn:Eat.
        + injection E as ->. exact (slug_year_at_bound G _ _ _ _ _ Htable Eat).
        + exact (IH E). }
    lia.
  - intros a b c d rest Ha Hb Hc Hd.
    assert (Hdigit : forall v, v <= 9 -> decimal_value G (48 + v) = Some v).
    { intros v Hv. unfold decimal_value, in_range.
      change (ch "0") with 48. change (ch "9") with 57.
      destruct (N.leb_spec 48 (48 + v)), (N.leb_spec (48 + v) 57); try lia.
      cbn [andb]. f_equal. lia. }
    unfold _slug_year.
    assert (Hat : slug_year_at G (lit "/inventory/"
                                  ++ [48 + a; 48 + b; 48 + c; 48 + d; ch "-"] ++ rest)
                  = Some (a, b, c, d)).
    { unfold slug_year_at.
      change (strip_prefix (lit "/inventory/")
                (lit "/inventory/" ++ [48 + a; 48 + b; 48 + c; 48 + d; ch "-"] ++ rest))
        with (Some ([48 + a; 48 + b; 48 + c; 48 + d; ch "-"] ++ rest)).
      cbn [app]. rewrite !Hdigit by assumption. reflexivity. }
    change (lit "/inventory/") with (ch "/" :: lit "inventory/") in *.
    cbn [app _SLUG_YEAR_RE_search] in *. rewrite Hat. f_equal. lia.
Qed.

Lemma slug_year_range_and_prefix_witness :
  _slug_year example_galib (lit "/inventory/2023-ford-f150-m71097/") = 2023%Z.
Proof.
  destruct (slug_year_range_and_prefix example_galib) as [_ H].
  - intros c v [=].
  - exact (H 2 0 2 3 (lit "ford-f150-m71097/")
             ltac:(lia) ltac:(lia) ltac:(lia) ltac:(lia)).
Defined.

(** X14.  The cap at its edge values.  With [max_results = 0] the result
    is empty.  With a negative [max_results] the slice [l[:max_results]]
    is always taken: the result is the ranked list without its last
    [-max_results] pages, and empty when there are no more than that. *)
Theorem nonpositive_cap_result (G : GaLib) (self : GA4Client)
  (server : nat -> Z -> result Report) (fuel : nat) (pages : list Page) :
  (_max_results self <= 0)%Z ->
  get_underexposed_pages G self server fuel = Some (Return pages) ->
  exists k st,
    pagination G self server fuel 0 initial_state = Broke k st
    /\ (_max_results self = 0%Z -> pages = [])
    /\ ((_max_results self < 0)%Z ->
        pages = firstn (length (underexposed st) - Z.to_nat (- _max_results self))
                  (sort_newest_first G (underexposed st))).
Proof.
  intros Hcap Hrun.
  destruct (returned_from_retained G self server fuel pages Hrun)
    as (k & st & Hloop & -> & _).
  exists k, st. split; [exact Hloop|].
  unfold rank_and_cap, slice_to. rewrite sort_newest_first_length. split.
  - intros H0. rewrite H0.
    destruct (Z.gtb_spec (Z.of_nat (length (underexposed st))) 0) as [Hgt|Hle].
    + reflexivity.
    + assert (Hlen : length (sort_newest_first G (underexposed st)) = 0%nat)
        by (rewrite sort_newest_first_length; lia).
      apply length_zero_iff_nil in Hlen. exact Hlen.
  - intros Hneg.
    destruct (Z.gtb_spec (Z.of_nat (length (underexposed st))) (_max_results self));
      [|lia].
    destruct (Z.ltb_spec (_max_results self) 0); [|lia].
    f_equal. lia.
Qed.

Lemma nonpositive_cap_result_witness :
  get_underexposed_pages example_galib (example_client (-1)) two_pages 1
  = Some (Return [page_2024])
  /\ get_underexposed_pages example_galib (example_client 0) two_pages 1
     = Some (Return []).
Proof.
  split.
  - destruct (nonpositive_cap_result example_galib (example_client (-1)) two_pages 1
                [page_2024] ltac:(simpl; lia) eq_refl)
      as (k & st & Hloop & _ & Hneg).
    reflexivity.
  - destruct (get_underexposed_pages example_galib (example_client 0) two_pages 1)
      as [[pages|e]|] eqn:E; try (vm_compute in E; discriminate).
    destruct (nonpositive_cap_result example_galib (example_client 0) two_pages 1
                pages ltac:(simpl; lia) E)
      as (k & st & _ & Hzero & _).
    rewrite (Hzero eq_refl). reflexivity.
Defined.

(** * The export *)

Lemma record_cells (domain : str) (row : pydict) (scrape : ScrapeResult) :
  row_cells CSV_COLUMNS (record_of domain row scrape)
  = [or_empty (stock_number scrape); or_empty (vin_number scrape)]
  /\ has_identifiers (record_of domain row scrape) = identified scrape
  /\ map fst (record_of domain row scrape)
     = [lit "page_path"; lit "full_url"; lit "page_views"; lit "stock_number";
        lit "vin_number"; lit "scraped_at"; lit "scrape_status";
        lit "error_message"].
Proof. repeat split. Qed.


Lemma export_records_cells (pages : list Page) (results : list ScrapeResult)
  (domain : str) :
  map (row_cells CSV_COLUMNS) (export_records pages results domain)
  = map (fun r => [or_empty (stock_number r); or_empty (vin_number r)])
      (filter identified (firstn (length pages) results)).
Proof.
  unfold export_records, records_to_dicts. revert results.
  induction pages as [|p pages IH]; intros results; [reflexivity|].
  destruct results as [|r results]; [reflexivity|].
  cbn [map combine length firstn filter fst snd].
  destruct (record_cells domain (page_dict p) r) as (Hcells & Hid & _).
  rewrite Hid. destruct (identified r); cbn [map]; rewrite ?Hcells, IH; reflexivity.
Qed.

(** X16.  The text handed to the file is the header line
    [stock_number,vin_number] and then one line for every scrape result,
    among the first [len(pages)], whose stock number and VIN are both
    present and not empty, in their order: the stock number, a comma and
    the VIN.  No other key of a record is written, and neither the paths
    nor the domain have any part in the text. *)
Theorem export_text_lines (pages : list Page) (results : list ScrapeResult)
  (domain : str) :
  csv_text (export_records pages results domain)
  = lit "stock_number,vin_number" ++ [0x0D; 0x0A]
    ++ flat_map (fun r => csv_line [or_empty (stock_number r);
                                    or_empty (vin_number r)])
         (filter identified (firstn (length pages) results)).
Proof.
  unfold csv_text.
  change (csv_line CSV_COLUMNS) with (lit "stock_number,vin_number" ++ [0x0D; 0x0A]).
  rewrite <- app_assoc. f_equal. f_equal.
  rewrite !flat_map_concat_map. f_equal.
  rewrite <- (map_map (row_cells CSV_COLUMNS) csv_line).
  rewrite export_records_cells, map_map. reflexivity.
Qed.

Section ScrapeLoop.

Variable L : Lib.
Variable cfg : Config.

(** Identifiers are recorded by a successful scrape only, under the URL
    the caller gave. *)
Lemma scrape_page_identifiers (session_get : str -> nat -> get_outcome)
  (url : str) (events : list event) (r : ScrapeResult) :
  scrape_page L cfg session_get url = (events, Return r) ->
  full_url r = url
  /\ (scrape_status r <> success ->
      vin_number r = None /\ stock_number r = None).
Proof.
  unfold scrape_page.
  destruct (_fetch_html L cfg session_get url) as [evs [html|e]].
  - destruct (parse_and_extract L cfg html) as [[vin stock]|exc];
      intros [= _ <-]; cbn; split; try reflexivity; try congruence.
    intros _. auto.
  - destruct e; cbn; intros [= _ <-]; cbn; auto.
Qed.

Lemma scrape_loop_returns (net : nat -> str -> nat -> get_outcome) (domain : str)
  (pages : list Page) (i : nat) (events : list main_event)
  (results : list ScrapeResult) :
  scrape_loop L cfg net domain i pages = (events, Return results) ->
  Forall2 (fun p r =>
             full_url r = lit "https://" ++ domain ++ page_path p
             /\ (forall v, vin_number r = Some v ->
                           scrape_status r = success /\ validated_vin L v)
             /\ (scrape_status r <> success ->
                 vin_number r = None /\ stock_number r = None))
    pages results
  /\ scrapes events = length pages
  /\ delays events = (length pages - 1)%nat.
Proof.
  revert i events results.
  induction pages as [|p pages IH]; intros i events results.
  - cbn. intros [= <- <-]. repeat split. constructor.
  - cbn [scrape_loop].
    destruct (scrape_page L cfg (net i) (lit "https://" ++ domain ++ page_path p))
      as [evs [scraped|e]] eqn:Epage; [|discriminate].
    destruct (scrape_loop L cfg net domain (S i) pages) as [later [rs|e]] eqn:Eloop;
      [|discriminate].
    cbn [bind]. intros [= <- <-].
    destruct (IH _ _ _ Eloop) as (Hall & Hscr & Hdel).
    destruct (scrape_page_identifiers _ _ _ _ Epage) as [Hurl Hnone].
    split; [|split].
    + constructor; [|exact Hall]. split; [exact Hurl|]. split; [|exact Hnone].
      intros v Hv. split.
      * destruct (scrape_status scraped) eqn:Es; try reflexivity;
          destruct Hnone as [Hn _]; congruence.
      * exact (scrape_page_vin_sound L cfg _ _ _ _ _ Epage Hv).
    + unfold scrapes in *. cbn [filter length].
      rewrite filter_app, length_app, Hscr.
      destruct pages; reflexivity.
    + unfold delays in *. cbn [filter].
      rewrite filter_app, length_app, Hdel.
      destruct pages; cbn; lia.
Qed.

End ScrapeLoop.

Lemma Forall2_in_right {A B : Type} (R : A -> B -> Prop) (l : list A)
  (l' : list B) (y : B) :
  Forall2 R l l' -> In y l' -> exists x, In x l /\ R x y.
Proof.
  induction 1 as [|x y' l l' Hxy _ IH]; intros Hin; [contradiction|].
  destruct Hin as [<-|Hin].
  - exists x. split; [left; reflexivity|exact Hxy].
  - destruct (IH Hin) as (x' & Hx' & HR). exists x'. split; [right|]; assumption.
Qed.

(** X17.  When the scrape loop of [main] completes, there is one result
    per page, in the order of the pages, each recorded under
    [https://] + domain + path of its page; every page was scraped once
    and the delay was taken between consecutive pages only, never after
    the last. *)
Theorem scrape_loop_aligned (L : Lib) (cfg : Config)
  (net : nat -> str -> nat -> get_outcome) (domain : str) (pages : list Page)
  (events : list main_event) (results : list ScrapeResult) :
  scrape_loop L cfg net domain 0 pages = (events, Return results) ->
  length results = length pages
  /\ Forall2 (fun p r => full_url r = lit "https://" ++ domain ++ page_path p)
       pages results
  /\ scrapes events = length pages
  /\ delays events = (length pages - 1)%nat
  /\ (pages <> [] -> exists before evs, events = before ++ [Scraped evs]).
Proof.
  intros Hrun.
  destruct (scrape_loop_returns L cfg net domain pages 0 events results Hrun)
    as (Hall & Hscr & Hdel).
  split; [symmetry; exact (Forall2_length Hall)|].
  split; [eapply Forall2_impl; [|exact Hall]; cbn; intros p r H; apply H|].
  split; [exact Hscr|]. split; [exact Hdel|].
  clear Hall Hscr Hdel. revert events results Hrun. generalize 0%nat.
  induction pages as [|p pages IH]; intros i events results Hrun Hne; [congruence|].
  cbn [scrape_loop] in Hrun.
  destruct (scrape_page L cfg (net i) (lit "https://" ++ domain ++ page_path p))
    as [evs [scraped|e]]; [|discriminate].
  destruct (scrape_loop L cfg net domain (S i) pages) as [later [rs|e]] eqn:Eloop;
    [|discriminate].
  cbn [bind] in Hrun. injection Hrun as <- _.
  destruct pages as [|q pages].
  - cbn in Eloop. injection Eloop as <- _. exists [], evs. reflexivity.
  - destruct (IH _ _ _ Eloop) as (before & evs' & ->); [discriminate|].
    exists (Scraped evs :: Delay :: before), evs'. reflexivity.
Qed.

(** X18.  When the scrape loop completes, the exported text has, after
    the header, one line per result that holds both identifiers, and every
    such result comes from a scrape with status [success] whose VIN is the
    upper-cased form of a trimmed value the VIN check accepted.  Pages that
    were not found or failed give no line. *)
Theorem exported_rows_are_validated (L : Lib) (cfg : Config)
  (net : nat -> str -> nat -> get_outcome) (domain : str) (pages : list Page)
  (events : list main_event) (results : list ScrapeResult) :
  scrape_loop L cfg net domain 0 pages = (events, Return results) ->
  csv_text (export_records pages results domain)
  = lit "stock_number,vin_number" ++ [0x0D; 0x0A]
    ++ flat_map (fun r => csv_line [or_empty (stock_number r);
                                    or_empty (vin_number r)])
         (filter identified results)
  /\ forall r,
      In r (filter identified results) ->
      scrape_status r = success
      /\ exists v stock,
          vin_number r = Some v /\ stock_number r = Some stock
          /\ v <> [] /\ stock <> []
          /\ validated_vin L v.
Proof.
  intros Hrun.
  destruct (scrape_loop_returns L cfg net domain pages 0 events results Hrun)
    as (Hall & _).
  split.
  - rewrite export_text_lines.
    rewrite (Forall2_length Hall), firstn_all. reflexivity.
  - intros r Hr. apply filter_In in Hr as [Hin Hid].
    unfold identified in Hid. apply andb_true_iff in Hid as [Hstock Hvin].
    destruct (vin_number r) as [v|] eqn:Ev; [|discriminate].
    destruct (stock_number r) as [stock|] eqn:Es; [|discriminate].
    destruct (Forall2_in_right _ _ _ _ Hall Hin) as (p & _ & _ & Hsound & _).
    destruct (Hsound v Ev) as [Hstatus Hvalid].
    split; [exact Hstatus|]. exists v, stock.
    repeat split; try assumption.
    + intros ->. discriminate.
    + intros ->. discriminate.
Qed.

(** Two pages, the second of them missing: two results, one delay, and
    one exported line. *)
Lemma scrape_loop_aligned_witness :
  exists events results,
    scrape_loop shop_lib (example_config 3) first_page_only (lit "dealer.example") 0
      [page_2024; page_2020]
    = (events, Return results)
    /\ length results = 2%nat
    /\ delays events = 1%nat.
Proof.
  destruct (scrape_loop shop_lib (example_config 3) first_page_only
              (lit "dealer.example") 0 [page_2024; page_2020])
    as [events [results|e]] eqn:E; [|vm_compute in E; discriminate].
  exists events, results. split; [reflexivity|].
  destruct (scrape_loop_aligned shop_lib (example_config 3) first_page_only
              (lit "dealer.example") [page_2024; page_2020] events results E)
    as (Hlen & _ & _ & Hdel & _).
  split; [exact Hlen|exact Hdel].
Defined.

Lemma exported_rows_are_validated_witness :
  exists events results,
    scrape_loop shop_lib (example_config 3) first_page_only (lit "dealer.example") 0
      [page_2024; page_2020]
    = (events, Return results)
    /\ csv_text (export_records [page_2024; page_2020] results (lit "dealer.example"))
       = lit "stock_number,vin_number" ++ [0x0D; 0x0A]
         ++ lit "M71097,1FTFW1ET1EKD12345" ++ [0x0D; 0x0A].
Proof.
  destruct (scrape_loop shop_lib (example_config 3) first_page_only
              (lit "dealer.example") 0 [page_2024; page_2020])
    as [events [results|e]] eqn:E; [|vm_compute in E; discriminate].
  exists events, results. split; [reflexivity|].
  destruct (exported_rows_are_validated shop_lib (example_config 3) first_page_only
              (lit "dealer.example") [page_2024; page_2020] events results E)
    as [Htext _].
  rewrite Htext. vm_compute in E. injection E as _ <-. reflexivity.
Defined.

(** * Locating the section *)

Lemma node_induction (P : node -> Prop) :
  (forall s, P (Str s)) ->
  (forall name children, Forall P children -> P (Tag name children)) ->
  forall n, P n.
Proof.
  intros Hstr Htag. fix IH 1. intros [s|name children].
  - apply Hstr.
  - apply Htag. induction children as [|c children IHc]; constructor.
    + apply IH.
    + exact IHc.
Qed.

Lemma strip_prefix_app (p s r z : str) :
  strip_prefix p s = Some r -> strip_prefix p (s ++ z) = Some (r ++ z).
Proof.
  revert s. induction p as [|a p IH]; intros s; cbn [strip_prefix].
  - intros [= <-]. reflexivity.
  - destruct s as [|b s]; [discriminate|]. cbn [app].
    destruct (a =? b); [apply IH|discriminate].
Qed.

Lemma substring_head (p s : str) :
  substring p s = true <->
  (exists r, strip_prefix p s = Some r)
  \/ match s with [] => False | _ :: s' => substring p s' = true end.
Proof.
  destruct s as [|c s]; cbn [substring];
    destruct (strip_prefix p _) as [r|]; split; intros H; eauto;
    try discriminate; try reflexivity.
  - destruct H as [[r' H]|[]]; discriminate.
  - destruct H as [[r' H]|H]; [discriminate|exact H].
Qed.

Lemma substring_app_l (p s z : str) :
  substring p s = true -> substring p (s ++ z) = true.
Proof.
  induction s as [|c s IH]; intros H; apply substring_head in H; apply substring_head.
  - destruct H as [[r H]|[]]. left. exists (r ++ z). apply (strip_prefix_app _ _ _ _ H).
  - destruct H as [[r H]|H].
    + left. exists (r ++ z). apply (strip_prefix_app _ _ _ _ H).
    + right. cbn [app]. apply IH, H.
Qed.

Lemma substring_app_r (p s x : str) :
  substring p s = true -> substring p (x ++ s) = true.
Proof.
  intros H. induction x as [|c x IH]; [exact H|].
  apply substring_head. right. exact IH.
Qed.

Section FindFacts.

Variable U : Casing.

Let heading := is_heading U.

Lemma find_heading_tag (ancestors : list node) (name : str) (children : list node) :
  find_heading U ancestors (Tag name children)
  = if heading (Tag name children) then Some (Tag name children, ancestors)
    else find_among U (Tag name children :: ancestors) children.
Proof.
  cbn [find_heading]. unfold heading.
  destruct (is_heading U (Tag name children)); [reflexivity|].
  induction children as [|c l IH] at 2 4; [reflexivity|].
  cbn [find_among]. rewrite <- IH. reflexivity.
Qed.

Lemma path_from_snoc (n : node) (inner : list node) (c top : node) :
  path_from n inner c -> In c (children_of top) -> path_from n (inner ++ [top]) top.
Proof.
  revert n. induction inner as [|a rest IH]; intros n; cbn [path_from app].
  - intros -> Hin. auto.
  - intros [Hn Hpath] Hin. split; [exact Hn|]. apply IH; assumption.
Qed.

Lemma find_among_some (ancestors l : list node) (r : node * list node) :
  find_among U ancestors l = Some r ->
  exists before c after,
    l = before ++ c :: after
    /\ find_heading U ancestors c = Some r
    /\ Forall (fun b => find_heading U ancestors b = None) before.
Proof.
  induction l as [|c l IH]; cbn [find_among]; [discriminate|].
  destruct (find_heading U ancestors c) as [found|] eqn:Ec.
  - intros [= <-]. exists [], c, l. repeat split; [exact Ec|constructor].
  - intros H. destruct (IH H) as (before & c' & after & -> & Hc' & Hbefore).
    exists (c :: before), c', after. repeat split; [exact Hc'|].
    constructor; assumption.
Qed.

Lemma find_among_none (ancestors l : list node) :
  find_among U ancestors l = None <->
  Forall (fun c => find_heading U ancestors c = None) l.
Proof.
  induction l as [|c l IH]; cbn [find_among].
  - split; [constructor|reflexivity].
  - destruct (find_heading U ancestors c) eqn:Ec.
    + split; [discriminate|]. intros H. inversion H; congruence.
    + rewrite IH. split; [constructor; assumption|].
      intros H. inversion H; assumption.
Qed.

(** What a successful search has found: a tag that passes the test, below
    the node searched, with no tag that passes it on the way down. *)
Lemma find_heading_sound (n : node) :
  forall ancestors h found,
    find_heading U ancestors n = Some (h, found) ->
    heading h = true
    /\ exists inner,
        found = inner ++ ancestors
        /\ path_from h inner n
        /\ Forall (fun a => heading a = false) inner.
Proof.
  induction n as [s|name children IH] using node_induction;
    intros ancestors h found; [discriminate|].
  rewrite find_heading_tag.
  destruct (heading (Tag name children)) eqn:Eh.
  - intros [= <- <-]. split; [exact Eh|]. exists []. repeat split. constructor.
  - intros Hfound.
    destruct (find_among_some _ _ _ Hfound) as (before & c & after & Hsplit & Hc & _).
    assert (Hin : In c children) by (rewrite Hsplit; apply in_elt).
    rewrite Forall_forall in IH.
    destruct (IH c Hin _ _ _ Hc) as (Hh & inner & -> & Hpath & Hnot).
    split; [exact Hh|]. exists (inner ++ [Tag name children]).
    rewrite <- app_assoc. split; [reflexivity|]. split.
    + apply (path_from_snoc _ _ c); [exact Hpath|exact Hin].
    + apply Forall_app. split; [exact Hnot|]. constructor; [exact Eh|constructor].
Qed.

Lemma phrase_ascii : Forall (fun c => c < 128) (lit "vehicle identification").
Proof.
  repeat constructor.
Qed.

Lemma path_from_top (d : node) (inner : list node) (top : node) :
  inner <> [] ->
  path_from d inner top ->
  exists c inner',
    inner = inner' ++ [top] /\ In c (children_of top) /\ path_from d inner' c.
Proof.
  revert d. induction inner as [|a rest IH]; intros d Hne; [congruence|].
  cbn [path_from]. intros [Hd Hpath]. destruct rest as [|b rest].
  - cbn [path_from] in Hpath. subst a. exists d, [].
    repeat split; [exact Hd].
  - destruct (IH a ltac:(discriminate) Hpath) as (c & inner' & -> & Hc & Hp).
    exists c, (a :: inner'). cbn [app path_from]. repeat split; assumption.
Qed.

(** A search that finds nothing: no tag from the node down passes the
    test. *)
Lemma find_heading_none (n : node) :
  forall ancestors,
    find_heading U ancestors n = None ->
    forall d inner, path_from d inner n -> heading d = false.
Proof.
  induction n as [s|name children IH] using node_induction;
    intros ancestors Hnone d inner Hpath.
  - destruct inner as [|a rest]; [cbn in Hpath; subst d; reflexivity|].
    destruct (path_from_top d (a :: rest) (Str s) ltac:(discriminate) Hpath)
      as (c & _ & _ & [] & _).
  - rewrite find_heading_tag in Hnone.
    destruct (heading (Tag name children)) eqn:Eh; [discriminate|].
    apply find_among_none in Hnone. rewrite Forall_forall in IH, Hnone.
    destruct inner as [|a rest]; [cbn in Hpath; subst d; exact Eh|].
    destruct (path_from_top d (a :: rest) _ ltac:(discriminate) Hpath)
      as (c & inner' & _ & Hc & Hp).
    exact (IH c Hc _ (Hnone c Hc) d inner' Hp).
Qed.

(** The text of a node holds the text of every node below it as one
    piece. *)
Lemma stripped_strings_below (d : node) (inner : list node) (top : node) :
  path_from d inner top ->
  exists before after,
    stripped_strings top = before ++ stripped_strings d ++ after.
Proof.
  revert d. induction inner as [|a rest IH]; intros d; cbn [path_from].
  - intros ->. exists [], []. rewrite app_nil_r. reflexivity.
  - intros [Hd Hpath]. destruct (IH a Hpath) as (before & after & ->).
    destruct a as [s|name children]; [contradiction|]. cbn [children_of] in Hd.
    apply in_split in Hd as (l1 & l2 & ->).
    cbn [stripped_strings]. rewrite flat_map_app. cbn [flat_map].
    exists (before ++ flat_map stripped_strings l1),
           (flat_map stripped_strings l2 ++ after).
    rewrite <- !app_assoc. reflexivity.
Qed.

(** Lowering a piece of a string gives, whatever stands around it, the
    same code points up to those outside ASCII. *)
Lemma lower_from_piece (s : str) :
  forall b1 a1 b2 a2,
    exists t1 t2,
      lower_from U b1 (s ++ a1) = t1 ++ lower_from U (rev s ++ b1) a1
      /\ lower_from U b2 (s ++ a2) = t2 ++ lower_from U (rev s ++ b2) a2
      /\ Forall2 same_ascii t1 t2.
Proof.
  induction s as [|c s IH]; intros b1 a1 b2 a2.
  - exists [], []. repeat split. constructor.
  - destruct (IH (c :: b1) a1 (c :: b2) a2) as (t1 & t2 & E1 & E2 & Halike).
    cbn [app lower_from rev]. rewrite E1, E2, <- !app_assoc. cbn [app].
    destruct (c =? capital_sigma).
    + eexists (_ :: t1), (_ :: t2). repeat split. constructor; [|exact Halike].
      right. destruct (final_sigma U b1 _), (final_sigma U b2 _); lia.
    + exists (lower_char U c ++ t1), (lower_char U c ++ t2).
      rewrite <- !app_assoc. repeat split.
      apply Forall2_app; [|exact Halike].
      induction (lower_char U c); constructor; [left; reflexivity|assumption].
Qed.

Lemma strip_prefix_alike (p : str) :
  Forall (fun c => c < 128) p ->
  forall s t r,
    Forall2 same_ascii s t -> strip_prefix p s = Some r ->
    exists r', strip_prefix p t = Some r'.
Proof.
  induction 1 as [|a p Ha Hp IH]; intros s t r Halike; cbn [strip_prefix].
  - eauto.
  - destruct Halike as [|b b' s t Hb Halike]; [discriminate|].
    destruct (N.eqb_spec a b) as [E|_]; [subst b|discriminate].
    destruct Hb as [<-|[Hb _]]; [|lia].
    rewrite N.eqb_refl. apply IH, Halike.
Qed.

Lemma substring_alike (p s t : str) :
  Forall (fun c => c < 128) p ->
  Forall2 same_ascii s t ->
  substring p s = true -> substring p t = true.
Proof.
  intros Hp Halike. induction Halike as [|b b' s t Hb Halike IH];
    intros H; apply substring_head in H; apply substring_head.
  - destruct H as [[r H]|[]]. left.
    apply (strip_prefix_alike p Hp [] [] r); [constructor|exact H].
  - destruct H as [[r H]|H].
    + left. apply (strip_prefix_alike p Hp (b :: s) (b' :: t) r);
        [constructor; assumption|exact H].
    + right. apply IH, H.
Qed.

Lemma lower_piece (p x s y : str) :
  Forall (fun c => c < 128) p ->
  substring p (lower U s) = true ->
  substring p (lower U (x ++ s ++ y)) = true.
Proof.
  intros Hp H. unfold lower in *.
  destruct (lower_from_piece x [] (s ++ y) [] []) as (tx & _ & -> & _ & _).
  destruct (lower_from_piece s [] [] (rev x ++ []) y) as (t1 & t2 & E1 & -> & Halike).
  rewrite app_nil_r in E1. cbn [lower_from] in E1. rewrite app_nil_r in E1.
  rewrite E1 in H.
  apply substring_app_r, substring_app_l, (substring_alike p t1 t2 Hp Halike H).
Qed.

Lemma phrase_below (d : node) (inner : list node) (top : node) (phrase : str) :
  Forall (fun c => c < 128) phrase ->
  path_from d inner top ->
  substring phrase (lower U (get_text_strip d)) = true ->
  substring phrase (lower U (get_text_strip top)) = true.
Proof.
  intros Hp Hpath Hd.
  destruct (stripped_strings_below d inner top Hpath) as (before & after & Htop).
  unfold get_text_strip in *. rewrite Htop, !concat_app.
  apply (lower_piece _ _ _ _ Hp Hd).
Qed.

Lemma path_from_split (h : node) (l1 : list node) (a : node) (l2 : list node) (top : node) :
  path_from h (l1 ++ a :: l2) top -> path_from h (l1 ++ [a]) a.
Proof.
  revert h. induction l1 as [|b l1 IH]; intros h; cbn [app path_from].
  - intros [Hh _]. auto.
  - intros [Hh Hpath]. split; [exact Hh|]. apply IH, Hpath.
Qed.

(** A tag that holds the heading found and does not pass the test has a
    name outside the nine. *)
Lemma above_heading_names (h : node) (inner : list node) (top : node) :
  heading h = true ->
  path_from h inner top ->
  Forall (fun a => heading a = false) inner ->
  Forall (fun a => heading_name a = false) inner.
Proof.
  intros Hh Hpath Hnot. rewrite Forall_forall in *. intros a Ha.
  specialize (Hnot a Ha). apply in_split in Ha as (l1 & l2 & ->).
  apply path_from_split in Hpath.
  unfold heading, is_heading in Hh, Hnot. apply andb_prop in Hh as [_ Hh].
  rewrite (phrase_below h _ a _ phrase_ascii Hpath Hh), andb_true_r in Hnot.
  exact Hnot.
Qed.

(** The search of the document, summed up. *)
Lemma soup_find_some (soup h : node) (found : list node) :
  soup_find U soup = Some (h, found) ->
  exists below,
    found = below ++ [soup]
    /\ heading h = true
    /\ path_from h (below ++ [soup]) soup
    /\ Forall (fun a => heading_name a = false) below.
Proof.
  unfold soup_find. intros Hfound.
  destruct (find_among_some _ _ _ Hfound) as (before & c & after & Hsplit & Hc & _).
  assert (Hin : In c (children_of soup)) by (rewrite Hsplit; apply in_elt).
  destruct (find_heading_sound c _ _ _ Hc) as (Hh & inner & -> & Hpath & Hnot).
  exists inner. repeat split; [exact Hh| |].
  - apply (path_from_snoc _ _ c); assumption.
  - apply (above_heading_names h inner c); assumption.
Qed.

Lemma soup_find_none (soup : node) :
  soup_find U soup = None <->
  forall d inner, path_from d (inner ++ [soup]) soup -> heading d = false.
Proof.
  split.
  - unfold soup_find. intros Hnone d inner Hpath.
    apply find_among_none in Hnone. rewrite Forall_forall in Hnone.
    destruct (path_from_top d (inner ++ [soup]) soup) as (c & inner' & _ & Hc & Hp);
      [destruct inner; discriminate|exact Hpath|].
    exact (find_heading_none c _ (Hnone c Hc) d inner' Hp).
  - intros Hall. destruct (soup_find U soup) as [[h found]|] eqn:E; [|reflexivity].
    destruct (soup_find_some _ _ _ E) as (below & _ & Hh & Hpath & _).
    rewrite (Hall h below Hpath) in Hh. discriminate.
Qed.

End FindFacts.

(** X19 (scraper.py, [_find_vehicle_id_section]): the function returns
    nothing exactly when no tag below the document has one of the nine
    names and the phrase in its lowered text. When it returns a tag, the
    heading it started from is an outermost one: no tag between that
    heading and the document has one of the nine names. The tag returned
    is the second one above the heading, or the document itself when the
    heading is a child of the document. *)
Theorem find_section_outermost (U : Casing) (soup : node) :
  (_find_vehicle_id_section U soup = None <->
   forall d inner, path_from d (inner ++ [soup]) soup -> is_heading U d = false)
  /\ forall c,
      _find_vehicle_id_section U soup = Some c ->
      exists h below,
        is_heading U h = true
        /\ path_from h (below ++ [soup]) soup
        /\ Forall (fun a => heading_name a = false) below
        /\ c = nth 1 (below ++ [soup]) soup.
Proof.
  unfold _find_vehicle_id_section. split.
  - rewrite <- soup_find_none.
    destruct (soup_find U soup) as [[h found]|] eqn:E; [|tauto].
    destruct (soup_find_some _ _ _ _ E) as (below & -> & _).
    destruct below as [|a [|b below]]; cbn [app]; split; discriminate.
  - intros c. destruct (soup_find U soup) as [[h found]|] eqn:E; [|discriminate].
    destruct (soup_find_some _ _ _ _ E) as (below & -> & Hh & Hpath & Hnames).
    intros Hc. exists h, below. repeat split; try assumption.
    destruct below as [|a [|b below]]; cbn [app nth] in *; congruence.
Qed.

Lemma find_section_outermost_witness :
  _find_vehicle_id_section plain_casing page_document = Some page_html
  /\ exists h below,
      is_heading plain_casing h = true
      /\ path_from h (below ++ [page_document]) page_document
      /\ Forall (fun a => heading_name a = false) below
      /\ page_html = nth 1 (below ++ [page_document]) page_document.
Proof.
  split; [reflexivity|].
  apply (proj2 (find_section_outermost plain_casing page_document) page_html).
  reflexivity.
Defined.
